(** * crowlet: the crawl orchestration of pkg/crawler/crawl.go

    A shallow embedding of the statistics aggregator (updateCrawlStats,
    MergeCrawlStats), the phase runner (crawlUrls), the link expansion
    (crawlLinks) and the orchestrator (AsyncCrawl), with the properties the
    specification states about them.

    Conventions.  Go's [int] (on the 64-bit targets the tool is built for),
    [int64] and [time.Duration] are 64-bit two's complement numbers: they are
    modelled as [Z] and every arithmetic operation wraps explicitly
    ([wrap64]).  A Go map is a [gmap]; a nil map is [None].  A run-time panic
    is the [Panic] outcome of the [res] monad.  What the package takes from
    other packages (the timing record, URLs, the transport) is the class
    [External]; the fetcher is a field of the configuration, as in the code,
    and the stream it returns is the finite list of outcomes received before
    the channel is closed.

    The file has the definitions first: the model of the code, what the
    specification says in its words, and a concrete site to run the model on;
    then the properties, in general and on the concrete site. *)

From stdpp Require Import gmap strings list fin_maps.
From Stdlib Require Import ZArith Lia.

Local Open Scope Z_scope.

(** ** 64-bit integers *)

Definition min_int64 : Z := - 2 ^ 63.
Definition max_int64 : Z := 2 ^ 63 - 1.

Definition in_int64 (z : Z) : Prop := min_int64 <= z <= max_int64.

(** The value a 64-bit signed register holds after [z] was computed in it. *)
Definition wrap64 (z : Z) : Z := (z + 2 ^ 63) mod 2 ^ 64 - 2 ^ 63.

Definition add64 (x y : Z) : Z := wrap64 (x + y).
Definition mul64 (x y : Z) : Z := wrap64 (x * y).

(** ** Panics *)

Inductive panic : Type :=
  | DivideByZero   (* runtime error: integer divide by zero *)
  | NilMapWrite.   (* assignment to entry in nil map *)

Inductive res (A : Type) : Type :=
  | Ok (a : A)
  | Panic (p : panic).

Arguments Ok {A} a.
Arguments Panic {A} p.

(** Sequencing stops at the first panic; [x ← c; k] is stdpp's notation. *)
#[global] Instance res_ret : MRet res := fun A a => Ok a.
#[global] Instance res_bind : MBind res := fun A B k c =>
  match c with
  | Ok a => k a
  | Panic p => Panic p
  end.

(** Go's [/] on 64-bit integers: truncation towards zero, a panic on a zero
    divisor, and the most negative value divided by -1 wraps to itself. *)
Definition quot64 (x y : Z) : Z := wrap64 (Z.quot x y).

Definition quo64 (x y : Z) : res Z :=
  if y =? 0 then Panic DivideByZero else Ok (quot64 x y).

(** ** time.Duration *)

Definition Duration : Type := Z.
Definition Nanosecond : Duration := 1.
Definition Nanoseconds (d : Duration) : Z := d.

(** ** The data model (crawl.go, lines 15-47) *)

Module CrawlResult.
Record t : Type := mk {
  URL : string;
  StatusCode : Z;
  Time : Duration;
  LinkingURLs : list string
}.
End CrawlResult.

Record CrawlStats : Type := mkCrawlStats {
  Total : Z;
  StatusCodes : option (gmap Z Z);
  Average200Time : Duration;
  Max200Time : Duration;
  Non200Urls : list CrawlResult.t
}.

Record CrawlLinksConfig : Type := mkCrawlLinksConfig {
  CrawlExternalLinks : bool;
  CrawlHyperlinks : bool;
  CrawlImages : bool
}.

(** [m[k]] on a Go map: the zero value when the key is absent. *)
Definition index (m : gmap Z Z) (k : Z) : Z := default 0 (m !! k).

(** [stats.StatusCodes[k]]: reading a nil map gives the zero value too. *)
Definition code_count (codes : option (gmap Z Z)) (k : Z) : Z :=
  match codes with
  | Some m => index m k
  | None => 0
  end.

(** The entry of a key, [None] when the key is absent or the map nil. *)
Definition entry (codes : option (gmap Z Z)) (k : Z) : option Z :=
  match codes with
  | Some m => m !! k
  | None => None
  end.

(** The zero value of the struct: what a named result holds on entry. *)
Definition zeroCrawlStats : CrawlStats :=
  {| Total := 0; StatusCodes := None; Average200Time := 0;
     Max200Time := 0; Non200Urls := [] |}.

(** The sum of the counts of a status-code map, as an exact integer. *)
Definition sumValues (m : gmap Z Z) : Z :=
  map_fold (fun _ value sum => sum + value) 0 m.

Definition sumCodes (codes : option (gmap Z Z)) : Z :=
  match codes with
  | Some m => sumValues m
  | None => 0
  end.

(** [Total == sum(StatusCodes.values())], the sum being taken the way the
    program can take it, in an [int]. *)
Definition totalIsSum (stats : CrawlStats) : Prop :=
  Total stats = wrap64 (sumCodes (StatusCodes stats)).

(** The same with the exact sum, for stats whose counts are counts: none is
    negative. *)
Definition countsNonneg (stats : CrawlStats) : Prop :=
  forall k v, entry (StatusCodes stats) k = Some v -> 0 <= v.

Definition totalIsExactSum (stats : CrawlStats) : Prop :=
  countsNonneg stats /\ Total stats = sumCodes (StatusCodes stats).

(** A CrawlStats in which every number is zero and the list empty.  The map
    may be nil or allocated, and may hold keys whose count is zero. *)
Definition allZero (stats : CrawlStats) : Prop :=
  Total stats = 0 /\
  (forall k, code_count (StatusCodes stats) k = 0) /\
  Average200Time stats = 0 /\
  Max200Time stats = 0 /\
  Non200Urls stats = [].

(** ** MergeCrawlStats (crawl.go, lines 49-81) *)

(** [for key, value := range src { dst[key] = dst[key] + value }].  The order
    in which Go visits the keys is unspecified; the loop body commutes, so
    every order gives the map [map_fold] computes. *)
Definition addCodes (dst : gmap Z Z) (src : option (gmap Z Z)) : gmap Z Z :=
  match src with
  | Some m => map_fold (fun key value acc => <[key := add64 (index acc key) value]> acc) dst m
  | None => dst
  end.

Definition mergeCodes (statsA statsB : CrawlStats) : gmap Z Z :=
  addCodes (addCodes ∅ (StatusCodes statsA)) (StatusCodes statsB).

Definition mergeAverage (statsA statsB : CrawlStats) (codes : gmap Z Z) : res Duration :=
  if negb (Average200Time statsA =? 0) || negb (Average200Time statsB =? 0) then
    let total200ns :=
      add64 (mul64 (Nanoseconds (Average200Time statsA)) (code_count (StatusCodes statsA) 200))
            (mul64 (Nanoseconds (Average200Time statsB)) (code_count (StatusCodes statsB) 200)) in
    q ← quo64 total200ns (index codes 200);
    Ok (mul64 q Nanosecond)
  else Ok 0.

Definition MergeCrawlStats (statsA statsB : CrawlStats) : res CrawlStats :=
  let total := add64 (Total statsA) (Total statsB) in
  let max200 :=
    if Max200Time statsA >? Max200Time statsB
    then Max200Time statsA else Max200Time statsB in
  let codes := mergeCodes statsA statsB in
  average ← mergeAverage statsA statsB codes;
  Ok {| Total := total;
        StatusCodes := Some codes;
        Average200Time := average;
        Max200Time := max200;
        Non200Urls := Non200Urls statsA ++ Non200Urls statsB |}.

(** The merge divides only when an average is not zero; the divisor is the
    merged 200-count. *)
Definition mergeDefined (a b : CrawlStats) : Prop :=
  (Average200Time a = 0 /\ Average200Time b = 0) \/
  add64 (code_count (StatusCodes a) 200) (code_count (StatusCodes b) 200) <> 0.

(** ** The crawler proper *)

(** Modelled from the spec: the link type tag, declared with [Link] in a file
    of the package that is not part of the sources at hand; the spec gives it
    the two values Hyperlink and Image. *)
Inductive LinkType : Type := Hyperlink | Image.

Definition LinkType_eqb (a b : LinkType) : bool :=
  match a, b with
  | Hyperlink, Hyperlink | Image, Image => true
  | _, _ => false
  end.

(** What the code takes from outside the package: the timing record of
    go-httpstat with its [Total] method, [time.Time], [url.URL] with its
    [String] method, and the transport settings of [HTTPConfig] the
    orchestration never reads. *)
Class External : Type := {
  httpstat_Result : Type;
  time_Time : Type;
  url_URL : Type;
  HTTPSettings : Type;
  Result_Total : httpstat_Result -> time_Time -> Duration;
  URL_String : url_URL -> string
}.

Section Crawler.
Context {outside : External}.

(** Modelled from the spec: [Link], declared elsewhere in the package: a
    target URL, a type tag and whether the target is outside the crawled
    host.  [Type_] is the field [Type], a reserved word here. *)
Record Link : Type := mkLink {
  Type_ : LinkType;
  TargetURL : url_URL;
  IsExternal : bool
}.

(** Modelled from the spec: [HTTPResponse], the fetch outcome declared
    elsewhere in the package: source URL, status code, an optional timing
    record, an end timestamp and the links found in the body. *)
Record HTTPResponse : Type := mkHTTPResponse {
  URL : string;
  Result : option httpstat_Result;
  StatusCode : Z;
  EndTime : time_Time;
  Links : list Link
}.

(** Modelled from the spec: [HTTPConfig], declared elsewhere in the package:
    opaque here but for the derived flag [ParseLinks]. *)
Record HTTPConfig : Type := mkHTTPConfig {
  ParseLinks : bool;
  Settings : HTTPSettings
}.

(** A [chan struct{}] as one pass sees it: [true] when the interrupt handler
    sends its token before the result stream is exhausted. *)
Definition quitChan : Type := bool.

(** Modelled from the spec: the [ConcurrentHTTPGetter] interface, declared
    elsewhere in the package.  [ConcurrentHTTPGet urls config throttle quit]
    returns a channel; it is modelled by the finite sequence of outcomes
    received from that channel before it is closed. *)
Definition ConcurrentHTTPGetter : Type :=
  list string -> HTTPConfig -> Z -> quitChan -> list HTTPResponse.

(** [Links_] is the field [Links]; [HTTPResponse] has a field of that name
    too. *)
Record CrawlConfig : Type := mkCrawlConfig {
  Throttle : Z;
  Host : string;
  HTTP : HTTPConfig;
  Links_ : CrawlLinksConfig;
  HTTPGetter : ConcurrentHTTPGetter
}.

(** [addInterruptHandlers] (lines 83-96): the channel the handler goroutine
    sends on when an OS signal arrives; [signal] tells whether one does. *)
Definition addInterruptHandlers (signal : bool) : quitChan := signal.

(** *** updateCrawlStats (lines 235-259) *)

Definition serverTimeOf (result : HTTPResponse) : Duration :=
  match Result result with
  | Some timing => Result_Total timing (EndTime result)
  | None => 0
  end.

Definition updateCrawlStats (result : HTTPResponse) (stats : CrawlStats)
    (total200Time : Duration) : res (CrawlStats * Duration) :=
  let total := add64 (Total stats) 1 in
  let statusCode := StatusCode result in
  let serverTime := serverTimeOf result in
  codes ← match StatusCodes stats with
          | Some m => Ok (<[statusCode := add64 (index m statusCode) 1]> m)
          | None => Panic NilMapWrite
          end;
  if statusCode =? 200 then
    Ok ({| Total := total;
           StatusCodes := Some codes;
           Average200Time := Average200Time stats;
           Max200Time := if serverTime >? Max200Time stats
                         then serverTime else Max200Time stats;
           Non200Urls := Non200Urls stats |},
        add64 total200Time serverTime)
  else
    Ok ({| Total := total;
           StatusCodes := Some codes;
           Average200Time := Average200Time stats;
           Max200Time := Max200Time stats;
           Non200Urls := Non200Urls stats ++
             [ {| CrawlResult.URL := URL result;
                  CrawlResult.StatusCode := statusCode;
                  CrawlResult.Time := serverTime;
                  CrawlResult.LinkingURLs := [] |} ] |},
        total200Time).

(** *** crawlUrls (lines 216-233) *)

(** The receive loop: one iteration per outcome, until the channel is
    closed. *)
Fixpoint receiveAll (resultsChan : list HTTPResponse) (results : list HTTPResponse)
    (stats : CrawlStats) (server200TimeSum : Duration)
    : res (list HTTPResponse * CrawlStats * Duration) :=
  match resultsChan with
  | [] => Ok (results, stats, server200TimeSum)
  | result :: rest =>
      '(stats', sum') ← updateCrawlStats result stats server200TimeSum;
      receiveAll rest (results ++ [result]) stats' sum'
  end.

(** The stats a pass starts from: the zero value with an allocated map. *)
Definition freshCrawlStats : CrawlStats :=
  {| Total := 0; StatusCodes := Some ∅; Average200Time := 0;
     Max200Time := 0; Non200Urls := [] |}.

Definition crawlUrls (urls : list string) (config : CrawlConfig) (signal : bool)
    : res (list HTTPResponse * CrawlStats * Duration) :=
  let quit := addInterruptHandlers signal in
  let resultsChan := HTTPGetter config urls (HTTP config) (Throttle config) quit in
  receiveAll resultsChan [] freshCrawlStats 0.

(** *** crawlLinks (lines 169-214) *)

(** The body of the inner loop (lines 174-186): three guards that skip the
    link, then the append to the target's entry. *)
Definition recordLink (links : CrawlLinksConfig) (result : HTTPResponse)
    (linkedUrlsSet : gmap string (list string)) (link : Link)
    : gmap string (list string) :=
  if IsExternal link && negb (CrawlExternalLinks links) then linkedUrlsSet
  else if LinkType_eqb (Type_ link) Hyperlink && negb (CrawlHyperlinks links) then linkedUrlsSet
  else if LinkType_eqb (Type_ link) Image && negb (CrawlImages links) then linkedUrlsSet
  else
    let target := URL_String (TargetURL link) in
    <[target := default [] (linkedUrlsSet !! target) ++ [URL result]]> linkedUrlsSet.

(** Lines 171-188. *)
Definition scanLinks (links : CrawlLinksConfig) (sourceResults : list HTTPResponse)
    : gmap string (list string) :=
  foldl (fun set result => foldl (recordLink links result) set (Links result))
        ∅ sourceResults.

(** Lines 190-192. *)
Definition dropCrawled (sourceURLs : list string) (linkedUrlsSet : gmap string (list string))
    : gmap string (list string) :=
  foldl (fun set alreadyCrawledURL => delete alreadyCrawledURL set)
        linkedUrlsSet sourceURLs.

Definition linkedUrlsSetOf (links : CrawlLinksConfig) (sourceResults : list HTTPResponse)
    (sourceURLs : list string) : gmap string (list string) :=
  dropCrawled sourceURLs (scanLinks links sourceResults).

(** Lines 194-197: the keys of the map, in the order the map gives them
    (Go leaves that order unspecified). *)
Definition linkedUrlsOf (linkedUrlsSet : gmap string (list string)) : list string :=
  (map_to_list linkedUrlsSet).*1.

(** Lines 199-204. *)
Definition linksConfigOf (sourceConfig : CrawlConfig) : CrawlConfig :=
  {| Throttle := Throttle sourceConfig;
     Host := Host sourceConfig;
     HTTP := {| ParseLinks := false; Settings := Settings (HTTP sourceConfig) |};
     Links_ := {| CrawlExternalLinks := false; CrawlHyperlinks := false;
                  CrawlImages := false |};
     HTTPGetter := HTTPGetter sourceConfig |}.

(** The body of the last loop (lines 209-210). *)
Definition setLinkingURLs (linkedUrlsSet : gmap string (list string))
    (linkResult : CrawlResult.t) : CrawlResult.t :=
  {| CrawlResult.URL := CrawlResult.URL linkResult;
     CrawlResult.StatusCode := CrawlResult.StatusCode linkResult;
     CrawlResult.Time := CrawlResult.Time linkResult;
     CrawlResult.LinkingURLs :=
       default [] (linkedUrlsSet !! CrawlResult.URL linkResult) |}.

Definition crawlLinks (sourceResults : list HTTPResponse) (sourceURLs : list string)
    (sourceConfig : CrawlConfig) (signal : bool)
    : res (list HTTPResponse * CrawlStats * Duration) :=
  let linkedUrlsSet := linkedUrlsSetOf (Links_ sourceConfig) sourceResults sourceURLs in
  let linkedUrls := linkedUrlsOf linkedUrlsSet in
  let linksConfig := linksConfigOf sourceConfig in
  '(linksResults, linksStats, linksServer200TimeSum) ←
    crawlUrls linkedUrls linksConfig signal;
  Ok (linksResults,
      {| Total := Total linksStats;
         StatusCodes := StatusCodes linksStats;
         Average200Time := Average200Time linksStats;
         Max200Time := Max200Time linksStats;
         Non200Urls := map (setLinkingURLs linkedUrlsSet) (Non200Urls linksStats) |},
      linksServer200TimeSum).

(** *** AsyncCrawl (lines 138-167) *)

(** Lines 147-153: the first pass and, when links are parsed, the second
    pass and the merge. *)
Definition crawlPhases (urls : list string) (config : CrawlConfig)
    (signal1 signal2 : bool) : res (CrawlStats * Duration) :=
  '(results, stats, server200TimeSum) ← crawlUrls urls config signal1;
  if ParseLinks (HTTP config) then
    '(_, linksStats, linksServer200TimeSum) ← crawlLinks results urls config signal2;
    stats' ← MergeCrawlStats stats linksStats;
    Ok (stats', add64 server200TimeSum linksServer200TimeSum)
  else Ok (stats, server200TimeSum).

(** Lines 155-158.  The divisor is positive, so the division cannot panic. *)
Definition finalizeAverage (stats : CrawlStats) (server200TimeSum : Duration) : CrawlStats :=
  let total200 := code_count (StatusCodes stats) 200 in
  if total200 >? 0 then
    {| Total := Total stats;
       StatusCodes := StatusCodes stats;
       Average200Time := quot64 server200TimeSum total200;
       Max200Time := Max200Time stats;
       Non200Urls := Non200Urls stats |}
  else stats.

(** Lines 160-164: the text of the error, [None] for a nil error. *)
Definition crawlError (stats : CrawlStats) : option string :=
  if Total stats =? 0 then Some "No URL crawled"%string
  else if negb (Total stats =? code_count (StatusCodes stats) 200)
  then Some "Some URLs had a different status code than 200"%string
  else None.

(** Lines 140-146. *)
Definition prepareConfig (config : CrawlConfig) : CrawlConfig :=
  {| Throttle := if Throttle config <=? 0 then 1 else Throttle config;
     Host := Host config;
     HTTP := {| ParseLinks := CrawlExternalLinks (Links_ config)
                              || CrawlHyperlinks (Links_ config)
                              || CrawlImages (Links_ config);
                Settings := Settings (HTTP config) |};
     Links_ := Links_ config;
     HTTPGetter := HTTPGetter config |}.

(** [signal1] and [signal2] tell whether an interrupt reaches the handler of
    the first and of the second pass.  The named result [stopped] is declared
    by the function and assigned nowhere in it: it leaves with its zero
    value. *)
Definition AsyncCrawl (urls : list string) (config : CrawlConfig)
    (signal1 signal2 : bool) : res (CrawlStats * bool * option string) :=
  let config := prepareConfig config in
  '(stats, server200TimeSum) ← crawlPhases urls config signal1 signal2;
  let stats := finalizeAverage stats server200TimeSum in
  let stopped := false in
  Ok (stats, stopped, crawlError stats).

(** *** What the link expansion amounts to *)

(** A link passes the three filters: it is not external while external links
    are not followed, not a Hyperlink while hyperlinks are not followed, not
    an Image while images are not followed. *)
Definition followed (links : CrawlLinksConfig) (link : Link) : bool :=
  negb (IsExternal link && negb (CrawlExternalLinks links)) &&
  negb (LinkType_eqb (Type_ link) Hyperlink && negb (CrawlHyperlinks links)) &&
  negb (LinkType_eqb (Type_ link) Image && negb (CrawlImages links)).

(** The source URL of [result], once for each of the given links that passes
    the filters and targets [target]. *)
Definition referrersIn (links : CrawlLinksConfig) (target : string)
    (result : HTTPResponse) (ls : list Link) : list string :=
  map (fun _ => URL result)
      (List.filter (fun link => followed links link &&
                                bool_decide (URL_String (TargetURL link) = target)) ls).

(** The source URLs of the results that reference [target] through a link
    that passes the filters, in the order the results and their links are
    scanned, one for each such link. *)
Definition referrers (links : CrawlLinksConfig) (sourceResults : list HTTPResponse)
    (target : string) : list string :=
  flat_map (fun result => referrersIn links target result (Links result)) sourceResults.

(** [append(m[k], ...)] seen from the entry: nothing appended leaves the
    entry as it is, absent or not. *)
Definition extend (o : option (list string)) (l : list string) : option (list string) :=
  match l with
  | [] => o
  | _ => Some (default [] o ++ l)
  end.

(** *** What a pass amounts to *)

(** The elapsed times of the status-200 outcomes of a pass, in order. *)
Definition times200 (pass : list HTTPResponse) : list Duration :=
  map serverTimeOf (List.filter (fun result => StatusCode result =? 200) pass).

Definition sumList (ts : list Z) : Z := foldr Z.add 0 ts.

(** The numbers of a running pass are 64-bit numbers. *)
Definition inRange (stats : CrawlStats) (sum : Duration) : Prop :=
  in_int64 (Total stats) /\ in_int64 sum /\
  in_int64 (code_count (StatusCodes stats) 200).

(** The overall average as AsyncCrawl computes it from two passes (lines
    147-158): merge the stats of the passes, add the success-time sums, divide
    by the merged 200-count. *)
Definition directAverage (passA passB : list HTTPResponse) : res Duration :=
  '(_, statsA, sumA) ← receiveAll passA [] freshCrawlStats 0;
  '(_, statsB, sumB) ← receiveAll passB [] freshCrawlStats 0;
  merged ← MergeCrawlStats statsA statsB;
  Ok (Average200Time (finalizeAverage merged (add64 sumA sumB))).

(** The overall average as the specification also describes it: finalize the
    average of each pass, then let MergeCrawlStats weigh the two averages by
    the 200-counts. *)
Definition weightedAverage (passA passB : list HTTPResponse) : res Duration :=
  '(_, statsA, sumA) ← receiveAll passA [] freshCrawlStats 0;
  '(_, statsB, sumB) ← receiveAll passB [] freshCrawlStats 0;
  merged ← MergeCrawlStats (finalizeAverage statsA sumA) (finalizeAverage statsB sumB);
  Ok (Average200Time merged).

(** The outcomes the fetcher streams in the first pass of AsyncCrawl, and in
    its second pass (none when no link is followed). *)
Definition firstPass (urls : list string) (config : CrawlConfig) (signal1 : bool)
    : list HTTPResponse :=
  let config := prepareConfig config in
  HTTPGetter config urls (HTTP config) (Throttle config) (addInterruptHandlers signal1).

Definition secondPass (urls : list string) (config : CrawlConfig) (signal1 signal2 : bool)
    : list HTTPResponse :=
  let config' := prepareConfig config in
  if ParseLinks (HTTP config') then
    HTTPGetter config'
      (linkedUrlsOf (linkedUrlsSetOf (Links_ config') (firstPass urls config signal1) urls))
      (HTTP (linksConfigOf config')) (Throttle config') (addInterruptHandlers signal2)
  else [].

(** *** A pass, outcome by outcome *)

(** The number of outcomes of a pass that carry a given status code. *)
Definition countStatus (k : Z) (pass : list HTTPResponse) : nat :=
  length (List.filter (fun result => StatusCode result =? k) pass).

(** The CrawlResult that updateCrawlStats records for an outcome (lines
    253-257). *)
Definition toCrawlResult (result : HTTPResponse) : CrawlResult.t :=
  {| CrawlResult.URL := URL result;
     CrawlResult.StatusCode := StatusCode result;
     CrawlResult.Time := serverTimeOf result;
     CrawlResult.LinkingURLs := [] |}.

(** The records of the outcomes of a pass whose status is not 200, in the
    order of arrival. *)
Definition non200Results (pass : list HTTPResponse) : list CrawlResult.t :=
  map toCrawlResult (List.filter (fun result => negb (StatusCode result =? 200)) pass).

(** An outcome without the links found in its body. *)
Definition dropLinks (result : HTTPResponse) : HTTPResponse :=
  {| URL := URL result; Result := Result result; StatusCode := StatusCode result;
     EndTime := EndTime result; Links := [] |}.

End Crawler.

(** ** The sitemap functions (crawl.go, lines 98-132) *)

(** What these functions take from other packages: [sitemap.Get] of
    go-sitemap, seen as the [Loc] of every URL entry of the sitemap it returns
    together with its error ([None] for nil), and [url.Parse], which gives a
    URL or an error.  An error is the text it carries.  The calls of
    [log.Error] write to the log and change no result. *)
Class SitemapSource {outside : External} : Type := {
  sitemap_Get : string -> list string * option string;
  url_Parse : string -> url_URL + string
}.

Section Sitemap.
Context {outside : External} {source : SitemapSource}.

(** The body of the loop of lines 109-116.  The [err] of line 110 is declared
    in the loop body: it hides the named result and leaves it untouched. *)
Definition appendParsed (urls : list url_URL) (Loc : string) : list url_URL :=
  match url_Parse Loc with
  | inr _ => urls
  | inl newURL => urls ++ [newURL]
  end.

Definition GetSitemapUrls (sitemapURL : string) : list url_URL * option string :=
  let '(entries, err) := sitemap_Get sitemapURL in
  match err with
  | Some e => ([], Some e)
  | None => (foldl appendParsed [] entries, None)
  end.

Definition GetSitemapUrlsAsStrings (sitemapURL : string) : list string * option string :=
  let '(typedUrls, err) := GetSitemapUrls sitemapURL in
  (foldl (fun urls url => urls ++ [URL_String url]) [] typedUrls, err).

(** The string form of an entry that parses, nothing for one that does
    not. *)
Definition parsedString (Loc : string) : option string :=
  match url_Parse Loc with
  | inl u => Some (URL_String u)
  | inr _ => None
  end.

End Sitemap.

(** * A concrete site

    The parameters are instantiated: a timing record is the duration its
    [Total] method returns, the end time carries nothing, a URL is its string
    form, and there are no transport settings.  The site has three pages:
    /a answers 200 in 50ms and holds an internal hyperlink to /b and an
    external image /c; /b answers 200 in 30ms; every other URL answers 404
    and has no timing record.  The fetcher attaches links only when asked to
    parse them, and closes its stream after one outcome when the quit channel
    fires. *)

Definition site : External :=
  {| httpstat_Result := Z;
     time_Time := unit;
     url_URL := string;
     HTTPSettings := unit;
     Result_Total := fun timing _ => timing;
     URL_String := fun u => u |}.

Definition Millisecond : Duration := 1000000 * Nanosecond.

Definition pageA : string := "http://site/a".
Definition pageB : string := "http://site/b".
Definition imageC : string := "http://cdn/c".

Definition linksOfA : list (@Link site) :=
  [ @mkLink site Hyperlink pageB false;
    @mkLink site Image imageC true ].

Definition siteGet (parse : bool) (u : string) : @HTTPResponse site :=
  if String.eqb u pageA then
    @mkHTTPResponse site u (Some (50 * Millisecond)) 200 tt
      (if parse then linksOfA else [])
  else if String.eqb u pageB then
    @mkHTTPResponse site u (Some (30 * Millisecond)) 200 tt []
  else
    @mkHTTPResponse site u None 404 tt [].

Definition siteGetter : @ConcurrentHTTPGetter site :=
  fun urls config _ quit =>
    map (siteGet (ParseLinks config)) (if quit then take 1 urls else urls).

Definition siteConfig (links : CrawlLinksConfig) : @CrawlConfig site :=
  @mkCrawlConfig site 0 "" (@mkHTTPConfig site false tt) links siteGetter.

Definition noLinks : CrawlLinksConfig :=
  {| CrawlExternalLinks := false; CrawlHyperlinks := false; CrawlImages := false |}.
Definition internalLinks : CrawlLinksConfig :=
  {| CrawlExternalLinks := false; CrawlHyperlinks := true; CrawlImages := true |}.
Definition allLinks : CrawlLinksConfig :=
  {| CrawlExternalLinks := true; CrawlHyperlinks := true; CrawlImages := true |}.

(** A pass of status-200 outcomes with the given elapsed times. *)
Definition pass200 (ts : list Z) : list (@HTTPResponse site) :=
  map (fun t => @mkHTTPResponse site pageA (Some t) 200 tt []) ts.

(** Two stats as a caller of the exported merge can build them. *)
Definition statsP : CrawlStats :=
  {| Total := 2; StatusCodes := Some {[ 200 := 1; 404 := 1 ]};
     Average200Time := 50; Max200Time := 50;
     Non200Urls := [ {| CrawlResult.URL := imageC; CrawlResult.StatusCode := 404;
                        CrawlResult.Time := 0; CrawlResult.LinkingURLs := [] |} ] |}.

Definition statsQ : CrawlStats :=
  {| Total := 1; StatusCodes := Some {[ 200 := 1 ]};
     Average200Time := 30; Max200Time := 30; Non200Urls := [] |}.

(** A non-zero average next to a zero 200-count. *)
Definition statsOdd : CrawlStats :=
  {| Total := 0; StatusCodes := None; Average200Time := 5;
     Max200Time := 0; Non200Urls := [] |}.

(** A status-200 outcome without a timing record. *)
Definition untimed200 : @HTTPResponse site :=
  @mkHTTPResponse site pageB None 200 tt [].

(** The running stats after one status-200 outcome of 50ms. *)
Definition statsRunning : CrawlStats :=
  {| Total := 1; StatusCodes := Some {[ 200 := 1 ]};
     Average200Time := 0; Max200Time := 50 * Millisecond; Non200Urls := [] |}.

(** The sitemap of the site lists /a, an entry that does not parse, and /b;
    no other sitemap can be retrieved.  A location that starts with a colon
    does not parse. *)
Definition siteSitemap : string := "http://site/sitemap.xml".

Definition siteParse (Loc : string) : string + string :=
  if String.prefix ":" Loc then inr "missing protocol scheme"%string else inl Loc.

Definition siteGetSitemap (u : string) : list string * option string :=
  if String.eqb u siteSitemap then ([pageA; ":bad"%string; pageB], None)
  else ([], Some "sitemap not found"%string).

Definition siteSource : @SitemapSource site :=
  @Build_SitemapSource site siteGetSitemap siteParse.

(** The first pass over /a and /b with link parsing on. *)
Definition siteResults : list (@HTTPResponse site) :=
  map (siteGet true) [pageA; pageB].

(** A fetcher that streams nothing when asked for a throttle below 1 and is
    the fetcher of the site otherwise, and the configuration that uses it. *)
Definition strictGetter : @ConcurrentHTTPGetter site :=
  fun urls config throttle quit =>
    if throttle <? 1 then [] else siteGetter urls config throttle quit.

Definition strictConfig (links : CrawlLinksConfig) : @CrawlConfig site :=
  @mkCrawlConfig site 0 "" (@mkHTTPConfig site false tt) links strictGetter.

(** A fetcher that finds a link to /b in every body, also when it is asked
    not to parse links, and the configuration that uses it. *)
Definition eagerGetter : @ConcurrentHTTPGetter site :=
  fun urls config throttle quit =>
    if ParseLinks config then siteGetter urls config throttle quit
    else map (fun result =>
                @mkHTTPResponse site (URL result) (Result result) (StatusCode result)
                  (EndTime result) [ @mkLink site Hyperlink pageB false ])
             (siteGetter urls config throttle quit).

Definition eagerConfig (links : CrawlLinksConfig) : @CrawlConfig site :=
  @mkCrawlConfig site 0 "" (@mkHTTPConfig site false tt) links eagerGetter.

(** A pass of two outcomes, and the same outcomes in the other order. *)
Definition passAC : list (@HTTPResponse site) := [siteGet false pageA; siteGet false imageC].
Definition passCA : list (@HTTPResponse site) := [siteGet false imageC; siteGet false pageA].

(** * Properties *)

Section Properties.
Context {outside : External}.

(** ** Arithmetic of [wrap64] *)

Lemma wrap64_range z : in_int64 (wrap64 z).
Proof.
  unfold in_int64, wrap64, min_int64, max_int64.
  pose proof (Z.mod_pos_bound (z + 2 ^ 63) (2 ^ 64) ltac:(lia)). lia.
Qed.

Lemma wrap64_id z : in_int64 z -> wrap64 z = z.
Proof.
  unfold in_int64, wrap64, min_int64, max_int64. intros H.
  rewrite Z.mod_small; lia.
Qed.

Lemma wrap64_idemp z : wrap64 (wrap64 z) = wrap64 z.
Proof. apply wrap64_id, wrap64_range. Qed.

Lemma wrap64_add_l a b : wrap64 (wrap64 a + b) = wrap64 (a + b).
Proof.
  unfold wrap64. f_equal.
  replace ((a + 2 ^ 63) mod 2 ^ 64 - 2 ^ 63 + b + 2 ^ 63)
    with ((a + 2 ^ 63) mod 2 ^ 64 + b) by lia.
  rewrite Zplus_mod_idemp_l. f_equal. lia.
Qed.

Lemma wrap64_add_r a b : wrap64 (a + wrap64 b) = wrap64 (a + b).
Proof. rewrite (Z.add_comm a), wrap64_add_l. f_equal. lia. Qed.

Lemma add64_comm x y : add64 x y = add64 y x.
Proof. unfold add64. f_equal. lia. Qed.

Lemma add64_0_l x : add64 0 x = wrap64 x.
Proof. reflexivity. Qed.

Lemma add64_0_r x : add64 x 0 = wrap64 x.
Proof. unfold add64. f_equal. lia. Qed.

(** Putting sums of wrapped sums in normal form. *)
Ltac wrap_norm :=
  unfold add64; repeat (rewrite ?wrap64_add_l, ?wrap64_add_r, ?wrap64_idemp);
  try (f_equal; lia).

(** ** Properties of MergeCrawlStats *)

Lemma code_count_entry codes k : code_count codes k = default 0 (entry codes k).
Proof. destruct codes; reflexivity. Qed.

Lemma addCodes_lookup dst m k :
  addCodes dst (Some m) !! k =
  match m !! k with
  | Some v => Some (add64 (index dst k) v)
  | None => dst !! k
  end.
Proof.
  unfold addCodes. revert k.
  apply (map_fold_weak_ind (fun r m => forall k, r !! k =
    match m !! k with Some v => Some (add64 (index dst k) v) | None => dst !! k end)).
  - intros k. rewrite lookup_empty. reflexivity.
  - intros i x m' r Hi IH k. destruct (decide (i = k)) as [->|Hne].
    + rewrite !lookup_insert_eq. unfold index at 1. rewrite IH, Hi. reflexivity.
    + rewrite !lookup_insert_ne by assumption. apply IH.
Qed.

Lemma addCodes_entry dst src k :
  addCodes dst src !! k =
  match entry src k with
  | Some v => Some (add64 (index dst k) v)
  | None => dst !! k
  end.
Proof. destruct src as [m|]; [apply addCodes_lookup | reflexivity]. Qed.

Lemma mergeCodes_lookup a b k :
  mergeCodes a b !! k =
  match entry (StatusCodes a) k, entry (StatusCodes b) k with
  | None, None => None
  | oa, ob => Some (add64 (default 0 oa) (default 0 ob))
  end.
Proof.
  unfold mergeCodes. rewrite addCodes_entry. unfold index. rewrite addCodes_entry.
  unfold index. rewrite lookup_empty.
  destruct (entry (StatusCodes a) k) as [x|], (entry (StatusCodes b) k) as [y|]; simpl.
  - f_equal. wrap_norm.
  - f_equal. wrap_norm.
  - reflexivity.
  - reflexivity.
Qed.

Lemma mergeCodes_index a b k :
  index (mergeCodes a b) k =
  add64 (code_count (StatusCodes a) k) (code_count (StatusCodes b) k).
Proof.
  unfold index. rewrite mergeCodes_lookup, !code_count_entry.
  destruct (entry (StatusCodes a) k), (entry (StatusCodes b) k); reflexivity.
Qed.

Lemma mergeCodes_comm a b : mergeCodes a b = mergeCodes b a.
Proof.
  apply map_eq. intros k. rewrite !mergeCodes_lookup.
  destruct (entry (StatusCodes a) k), (entry (StatusCodes b) k); simpl;
    try reflexivity; f_equal; apply add64_comm.
Qed.

Lemma gtb_max x y : (if x >? y then x else y) = Z.max x y.
Proof. rewrite Z.gtb_ltb. destruct (Z.ltb_spec y x); lia. Qed.

Lemma mergeAverage_comm a b :
  mergeAverage a b (mergeCodes a b) = mergeAverage b a (mergeCodes b a).
Proof.
  unfold mergeAverage. rewrite (mergeCodes_comm b a), (orb_comm (negb (Average200Time b =? 0))).
  destruct (_ || _); [|reflexivity]. rewrite (add64_comm (mul64 _ _)). reflexivity.
Qed.

Lemma mergeAverage_defined a b :
  mergeDefined a b -> exists d, mergeAverage a b (mergeCodes a b) = Ok d.
Proof.
  unfold mergeDefined, mergeAverage. intros [[-> ->]|Hne].
  - simpl. eauto.
  - destruct (_ || _); [|eauto]. unfold quo64. rewrite mergeCodes_index.
    destruct (Z.eqb_spec (add64 (code_count (StatusCodes a) 200)
                                (code_count (StatusCodes b) 200)) 0); [contradiction|].
    simpl. eauto.
Qed.

Lemma mergeAverage_panics a b p :
  mergeAverage a b (mergeCodes a b) = Panic p ->
  p = DivideByZero /\ ~ mergeDefined a b.
Proof.
  unfold mergeDefined, mergeAverage.
  destruct (Z.eqb_spec (Average200Time a) 0) as [Ha|Ha],
           (Z.eqb_spec (Average200Time b) 0) as [Hb|Hb]; simpl; try discriminate;
    unfold quo64; rewrite mergeCodes_index;
    destruct (Z.eqb_spec (add64 (code_count (StatusCodes a) 200)
                                (code_count (StatusCodes b) 200)) 0);
    simpl; try discriminate; intros [= <-]; split; try reflexivity; tauto.
Qed.

Lemma MergeCrawlStats_Ok a b stats :
  MergeCrawlStats a b = Ok stats <->
  exists average,
    mergeAverage a b (mergeCodes a b) = Ok average /\
    stats = {| Total := add64 (Total a) (Total b);
               StatusCodes := Some (mergeCodes a b);
               Average200Time := average;
               Max200Time := Z.max (Max200Time a) (Max200Time b);
               Non200Urls := Non200Urls a ++ Non200Urls b |}.
Proof.
  unfold MergeCrawlStats. rewrite gtb_max.
  destruct (mergeAverage a b (mergeCodes a b)) as [d|p]; simpl; split.
  - intros [= <-]. eauto.
  - intros (d' & [= <-] & ->). reflexivity.
  - discriminate.
  - intros (d' & [=] & _).
Qed.

Lemma MergeCrawlStats_defined a b :
  mergeDefined a b -> exists stats, MergeCrawlStats a b = Ok stats.
Proof.
  intros H. destruct (mergeAverage_defined a b H) as [d Hd].
  eexists. apply MergeCrawlStats_Ok. eauto.
Qed.

Lemma MergeCrawlStats_Panic a b p :
  MergeCrawlStats a b = Panic p -> p = DivideByZero /\ ~ mergeDefined a b.
Proof.
  unfold MergeCrawlStats. intros H. apply mergeAverage_panics.
  destruct (mergeAverage a b (mergeCodes a b)); simpl in H; [discriminate | congruence].
Qed.

(** C1.  For every pair of CrawlStats [a] and [b], the merge returns unless
    its averaging step divides by a zero 200-count, and the stats it returns
    have [Total] equal to [a.Total + b.Total] (Go's addition on [int]; the
    exact sum whenever that fits an [int]) and [Max200Time] equal to the
    maximum of [a.Max200Time] and [b.Max200Time]. *)
Theorem merge_total_and_max (a b : CrawlStats) :
  (mergeDefined a b -> exists stats, MergeCrawlStats a b = Ok stats) /\
  (forall stats, MergeCrawlStats a b = Ok stats ->
     Total stats = add64 (Total a) (Total b) /\
     (in_int64 (Total a + Total b) -> Total stats = Total a + Total b) /\
     Max200Time stats = Z.max (Max200Time a) (Max200Time b)).
Proof.
  split; [apply MergeCrawlStats_defined|].
  intros stats H. apply MergeCrawlStats_Ok in H as (d & _ & ->). simpl.
  split; [reflexivity|]. split; [|reflexivity].
  intros Hr. apply wrap64_id, Hr.
Qed.

(** C7.  The merge is commutative on [Total], [StatusCodes], [Max200Time]
    and [Average200Time]: when [Merge(a,b)] returns so does [Merge(b,a)], with
    the same four fields, and when one panics so does the other.
    [Non200Urls] is not commuted: it is [a.Non200Urls] followed by
    [b.Non200Urls], nothing removed. *)
Theorem merge_commutative_but_urls (a b : CrawlStats) :
  (mergeDefined a b -> exists stats, MergeCrawlStats a b = Ok stats) /\
  (forall stats, MergeCrawlStats a b = Ok stats ->
     Non200Urls stats = Non200Urls a ++ Non200Urls b /\
     exists stats', MergeCrawlStats b a = Ok stats' /\
       Non200Urls stats' = Non200Urls b ++ Non200Urls a /\
       Total stats = Total stats' /\
       StatusCodes stats = StatusCodes stats' /\
       Max200Time stats = Max200Time stats' /\
       Average200Time stats = Average200Time stats') /\
  (forall p, MergeCrawlStats a b = Panic p -> MergeCrawlStats b a = Panic p).
Proof.
  split; [apply MergeCrawlStats_defined|]. split; [|intros p; revert p].
  - intros stats H. apply MergeCrawlStats_Ok in H as (d & Hd & ->). simpl.
    split; [reflexivity|].
    eexists. split.
    + apply MergeCrawlStats_Ok. exists d. split; [|reflexivity].
      rewrite <- mergeAverage_comm. exact Hd.
    + simpl. rewrite (mergeCodes_comm b a), (add64_comm (Total b)), (Z.max_comm (Max200Time b)).
      repeat split.
  - unfold MergeCrawlStats. rewrite <- (mergeAverage_comm a b).
    destruct (mergeAverage a b (mergeCodes a b)); simpl; [discriminate|].
    intros p' [= ->]. reflexivity.
Qed.

(** C4, as amended.  When both operands have a zero 200-count and a zero
    [Average200Time], the merge returns (it does not divide) and the merged
    [Average200Time] is zero; and the merge of two all-zero CrawlStats returns
    an all-zero CrawlStats. *)
Theorem merge_zero_counts_zero_averages (a b : CrawlStats) :
  (code_count (StatusCodes a) 200 = 0 -> code_count (StatusCodes b) 200 = 0 ->
   Average200Time a = 0 -> Average200Time b = 0 ->
   exists stats, MergeCrawlStats a b = Ok stats /\ Average200Time stats = 0) /\
  (allZero a -> allZero b ->
   exists stats, MergeCrawlStats a b = Ok stats /\ allZero stats).
Proof.
  assert (Hz : Average200Time a = 0 -> Average200Time b = 0 ->
               mergeAverage a b (mergeCodes a b) = Ok 0).
  { intros Ha Hb. unfold mergeAverage. rewrite Ha, Hb. reflexivity. }
  split.
  - intros _ _ Ha Hb. eexists. split.
    + apply MergeCrawlStats_Ok. eexists. split; [apply Hz; assumption | reflexivity].
    + reflexivity.
  - intros (Ta & Ca & Aa & Ma & Ua) (Tb & Cb & Ab & Mb & Ub). eexists. split.
    + apply MergeCrawlStats_Ok. eexists. split; [apply Hz; assumption | reflexivity].
    + unfold allZero. simpl. rewrite Ta, Tb, Ma, Mb, Ua, Ub.
      repeat split. intros k. rewrite mergeCodes_index, Ca, Cb. reflexivity.
Qed.

(** ** The invariant [Total == sum of the counts] *)

Lemma sumValues_empty : sumValues ∅ = 0.
Proof. apply map_fold_empty. Qed.

Lemma sumValues_insert_fresh m i x :
  m !! i = None -> sumValues (<[i := x]> m) = sumValues m + x.
Proof.
  intros Hi. unfold sumValues. rewrite map_fold_insert_L; [reflexivity| |exact Hi].
  intros. lia.
Qed.

Lemma sumValues_delete m i : sumValues m = sumValues (delete i m) + index m i.
Proof.
  unfold index. destruct (m !! i) as [x|] eqn:Hi; simpl.
  - rewrite <- (insert_delete_id m i x Hi) at 1.
    apply sumValues_insert_fresh, lookup_delete_eq.
  - rewrite delete_id by exact Hi. lia.
Qed.

Lemma sumValues_insert m i v :
  sumValues (<[i := v]> m) = sumValues m - index m i + v.
Proof.
  rewrite <- insert_delete_eq, sumValues_insert_fresh by apply lookup_delete_eq.
  rewrite (sumValues_delete m i). lia.
Qed.

Lemma sumValues_nonneg m :
  (forall k v, m !! k = Some v -> 0 <= v) -> 0 <= sumValues m.
Proof.
  induction m as [|i x m Hi IH] using map_ind; intros Hm.
  - rewrite sumValues_empty. lia.
  - rewrite sumValues_insert_fresh by exact Hi.
    assert (0 <= x) by (apply (Hm i); apply lookup_insert_eq).
    assert (0 <= sumValues m); [|lia].
    apply IH. intros k v Hk. apply (Hm k). rewrite lookup_insert_ne; [exact Hk|].
    intros ->. congruence.
Qed.

Lemma index_le_sumValues m k :
  (forall k v, m !! k = Some v -> 0 <= v) -> 0 <= index m k <= sumValues m.
Proof.
  intros Hm. rewrite (sumValues_delete m k).
  assert (0 <= sumValues (delete k m)).
  { apply sumValues_nonneg. intros j v Hj. apply (Hm j).
    destruct (decide (k = j)) as [->|Hne].
    - rewrite lookup_delete_eq in Hj. discriminate.
    - rewrite lookup_delete_ne in Hj by exact Hne. exact Hj. }
  assert (0 <= index m k); [|lia].
  unfold index. destruct (m !! k) as [x|] eqn:Hk; simpl; [apply (Hm k x Hk) | lia].
Qed.

(** The sum of the counts after the loop of lines 61-63 (or 66-68), modulo
    2^64 and, when nothing overflows, exactly. *)
Lemma addCodes_sum dst src :
  wrap64 (sumValues (addCodes dst src)) = wrap64 (sumValues dst + sumCodes src).
Proof.
  destruct src as [m|]; simpl; [|f_equal; lia].
  apply (map_fold_weak_ind (fun r m =>
    wrap64 (sumValues r) = wrap64 (sumValues dst + sumValues m))).
  - rewrite sumValues_empty. f_equal. lia.
  - intros i x m' r Hi IH.
    rewrite sumValues_insert, sumValues_insert_fresh by exact Hi.
    unfold add64. rewrite wrap64_add_r.
    replace (sumValues r - index r i + (index r i + x)) with (sumValues r + x) by lia.
    rewrite <- wrap64_add_l, IH, wrap64_add_l. f_equal. lia.
Qed.

Lemma addCodes_exact dst src :
  (forall k v, dst !! k = Some v -> 0 <= v) ->
  (forall k v, entry src k = Some v -> 0 <= v) ->
  sumValues dst + sumCodes src <= max_int64 ->
  (forall k v, addCodes dst src !! k = Some v -> 0 <= v) /\
  sumValues (addCodes dst src) = sumValues dst + sumCodes src.
Proof.
  intros Hdst. destruct src as [m|]; simpl; [|intros _ _; split; [exact Hdst | lia]].
  apply (map_fold_weak_ind (fun r m =>
    (forall k v, m !! k = Some v -> 0 <= v) ->
    sumValues dst + sumValues m <= max_int64 ->
    (forall k v, r !! k = Some v -> 0 <= v) /\
    sumValues r = sumValues dst + sumValues m)).
  - intros _ _. rewrite sumValues_empty. split; [exact Hdst | lia].
  - intros i x m' r Hi IH Hm. rewrite sumValues_insert_fresh by exact Hi. intros Hle.
    assert (Hx : 0 <= x) by (apply (Hm i); apply lookup_insert_eq).
    assert (Hm' : forall k v, m' !! k = Some v -> 0 <= v).
    { intros k v Hk. apply (Hm k). rewrite lookup_insert_ne; [exact Hk|].
      intros ->. congruence. }
    destruct (IH Hm' ltac:(lia)) as [Hr Hs].
    pose proof (index_le_sumValues r i Hr) as Hi'.
    assert (Hadd : add64 (index r i) x = index r i + x).
    { apply wrap64_id. unfold in_int64, min_int64. unfold max_int64 in *. lia. }
    rewrite Hadd, sumValues_insert. split; [|lia].
    intros k v. destruct (decide (i = k)) as [->|Hne].
    + rewrite lookup_insert_eq. intros [= <-]. lia.
    + rewrite lookup_insert_ne by exact Hne. apply Hr.
Qed.

Lemma mergeCodes_sum a b :
  wrap64 (sumValues (mergeCodes a b)) =
  add64 (wrap64 (sumCodes (StatusCodes a))) (wrap64 (sumCodes (StatusCodes b))).
Proof.
  unfold mergeCodes. rewrite addCodes_sum, <- wrap64_add_l, addCodes_sum.
  rewrite sumValues_empty. wrap_norm.
Qed.

Lemma mergeCodes_exact a b :
  countsNonneg a -> countsNonneg b ->
  sumCodes (StatusCodes a) + sumCodes (StatusCodes b) <= max_int64 ->
  (forall k v, mergeCodes a b !! k = Some v -> 0 <= v) /\
  sumValues (mergeCodes a b) = sumCodes (StatusCodes a) + sumCodes (StatusCodes b).
Proof.
  intros Ha Hb Hle. unfold mergeCodes.
  assert (0 <= sumCodes (StatusCodes b)).
  { unfold countsNonneg in Hb. destruct (StatusCodes b); simpl; [|lia].
    apply sumValues_nonneg, Hb. }
  destruct (addCodes_exact ∅ (StatusCodes a)) as [H1 H2].
  - intros k v. rewrite lookup_empty. discriminate.
  - exact Ha.
  - rewrite sumValues_empty. lia.
  - rewrite sumValues_empty in H2.
    destruct (addCodes_exact (addCodes ∅ (StatusCodes a)) (StatusCodes b)) as [H3 H4];
      [exact H1 | exact Hb | lia |]. split; [exact H3 | lia].
Qed.

(** ** Properties of updateCrawlStats *)

Lemma updateCrawlStats_nil result stats sum :
  StatusCodes stats = None ->
  updateCrawlStats result stats sum = Panic NilMapWrite.
Proof. unfold updateCrawlStats. intros ->. reflexivity. Qed.

Lemma updateCrawlStats_fields result stats sum m :
  StatusCodes stats = Some m ->
  exists stats' sum',
    updateCrawlStats result stats sum = Ok (stats', sum') /\
    Total stats' = add64 (Total stats) 1 /\
    StatusCodes stats' =
      Some (<[StatusCode result := add64 (index m (StatusCode result)) 1]> m) /\
    Average200Time stats' = Average200Time stats /\
    (StatusCode result = 200 ->
       sum' = add64 sum (serverTimeOf result) /\
       Max200Time stats' = Z.max (Max200Time stats) (serverTimeOf result) /\
       Non200Urls stats' = Non200Urls stats) /\
    (StatusCode result <> 200 ->
       sum' = sum /\
       Max200Time stats' = Max200Time stats /\
       Non200Urls stats' = Non200Urls stats ++
         [ {| CrawlResult.URL := URL result;
              CrawlResult.StatusCode := StatusCode result;
              CrawlResult.Time := serverTimeOf result;
              CrawlResult.LinkingURLs := [] |} ]).
Proof.
  intros Hm. unfold updateCrawlStats. rewrite Hm. simpl.
  destruct (Z.eqb_spec (StatusCode result) 200) as [He|Hne].
  - eexists _, _. split; [reflexivity|]. simpl. rewrite gtb_max, Z.max_comm.
    repeat split; congruence.
  - eexists _, _. split; [reflexivity|]. simpl.
    repeat split; congruence.
Qed.

Lemma updateCrawlStats_totalIsSum result stats sum stats' sum' :
  totalIsSum stats ->
  updateCrawlStats result stats sum = Ok (stats', sum') ->
  totalIsSum stats'.
Proof.
  intros Hs Hu. destruct (StatusCodes stats) as [m|] eqn:Hm.
  - destruct (updateCrawlStats_fields result stats sum m Hm)
      as (stats1 & sum1 & Hu1 & Ht & Hc & _).
    rewrite Hu in Hu1. injection Hu1 as <- <-.
    unfold totalIsSum in *. rewrite Ht, Hc, Hs, Hm. simpl.
    rewrite sumValues_insert. unfold add64. rewrite wrap64_add_l, wrap64_add_r.
    f_equal. lia.
  - rewrite updateCrawlStats_nil in Hu by exact Hm. discriminate.
Qed.

Lemma MergeCrawlStats_totalIsSum a b stats :
  totalIsSum a -> totalIsSum b ->
  MergeCrawlStats a b = Ok stats ->
  totalIsSum stats.
Proof.
  intros Ha Hb H. apply MergeCrawlStats_Ok in H as (d & _ & ->).
  unfold totalIsSum in *. simpl. rewrite Ha, Hb. symmetry. apply mergeCodes_sum.
Qed.

(** C2.  [Total == sum of the counts of StatusCodes] is kept by both
    aggregation operations.  updateCrawlStats, on stats whose map is allocated
    (on a nil map Go panics at the assignment and there is no state after),
    returns stats in which [Total] is one more, the entry of the outcome's
    status code is one more and no other entry changed, and the equation still
    holds.  MergeCrawlStats of two stats that satisfy the equation returns
    stats that satisfy it.  The equation is kept both when the sum is taken in
    an [int] ([totalIsSum]) and, as long as no count overflows, with the exact
    sum ([totalIsExactSum]). *)
Theorem total_is_sum_preserved :
  (forall result stats sum m,
     StatusCodes stats = Some m ->
     exists stats' sum',
       updateCrawlStats result stats sum = Ok (stats', sum') /\
       Total stats' = add64 (Total stats) 1 /\
       StatusCodes stats' =
         Some (<[StatusCode result := add64 (index m (StatusCode result)) 1]> m) /\
       (totalIsSum stats -> totalIsSum stats') /\
       (totalIsExactSum stats -> Total stats < max_int64 ->
        totalIsExactSum stats' /\ Total stats' = Total stats + 1 /\
        code_count (StatusCodes stats') (StatusCode result) =
          code_count (StatusCodes stats) (StatusCode result) + 1)) /\
  (forall result stats sum,
     StatusCodes stats = None ->
     updateCrawlStats result stats sum = Panic NilMapWrite) /\
  (forall a b,
     (mergeDefined a b -> exists stats, MergeCrawlStats a b = Ok stats) /\
     (forall stats, MergeCrawlStats a b = Ok stats ->
        (totalIsSum a -> totalIsSum b -> totalIsSum stats) /\
        (totalIsExactSum a -> totalIsExactSum b -> Total a + Total b <= max_int64 ->
         totalIsExactSum stats /\ Total stats = Total a + Total b))).
Proof.
  split; [|split].
  - intros result stats sum m Hm.
    destruct (updateCrawlStats_fields result stats sum m Hm)
      as (stats' & sum' & Hu & Ht & Hc & _).
    exists stats', sum'. split; [exact Hu|]. split; [exact Ht|]. split; [exact Hc|].
    split.
    + intros Hs. exact (updateCrawlStats_totalIsSum _ _ _ _ _ Hs Hu).
    + unfold totalIsExactSum, countsNonneg. rewrite Ht, Hc, Hm. simpl.
      intros [Hnn Hs] Hlt.
      pose proof (index_le_sumValues m (StatusCode result) Hnn) as Hi.
      assert (Hadd : add64 (index m (StatusCode result)) 1 = index m (StatusCode result) + 1).
      { apply wrap64_id. unfold in_int64, min_int64. unfold max_int64 in *. lia. }
      assert (Hadd' : add64 (Total stats) 1 = Total stats + 1).
      { apply wrap64_id. unfold in_int64, min_int64. unfold max_int64 in *. lia. }
      rewrite Hadd, Hadd', sumValues_insert. repeat split; try lia.
      * intros k v. destruct (decide (StatusCode result = k)) as [<-|Hne].
        -- rewrite lookup_insert_eq. intros [= <-]. lia.
        -- rewrite lookup_insert_ne by exact Hne. apply Hnn.
      * unfold index at 1. rewrite lookup_insert_eq. reflexivity.
  - apply updateCrawlStats_nil.
  - intros a b. split; [apply MergeCrawlStats_defined|].
    intros stats H. split.
    + intros Ha Hb. exact (MergeCrawlStats_totalIsSum a b stats Ha Hb H).
    + apply MergeCrawlStats_Ok in H as (d & _ & ->).
      unfold totalIsExactSum. simpl. intros [Hna Ha] [Hnb Hb] Hle.
      destruct (mergeCodes_exact a b Hna Hnb) as [Hnn Hs]; [lia|].
      assert (0 <= sumCodes (StatusCodes a)).
      { unfold countsNonneg in Hna. destruct (StatusCodes a); simpl; [|lia].
        apply sumValues_nonneg, Hna. }
      assert (0 <= sumCodes (StatusCodes b)).
      { unfold countsNonneg in Hnb. destruct (StatusCodes b); simpl; [|lia].
        apply sumValues_nonneg, Hnb. }
      assert (Hadd : add64 (Total a) (Total b) = Total a + Total b).
      { apply wrap64_id. unfold in_int64, min_int64. unfold max_int64 in *. lia. }
      rewrite Hadd. repeat split; try lia. exact Hnn.
Qed.

(** ** Properties of a pass *)

Lemma times200_cons result pass :
  times200 (result :: pass) =
  if StatusCode result =? 200 then serverTimeOf result :: times200 pass
  else times200 pass.
Proof. unfold times200. simpl. destruct (StatusCode result =? 200); reflexivity. Qed.

Lemma receiveAll_spec chan : forall results stats sum m,
  StatusCodes stats = Some m ->
  exists stats' sum' m',
    receiveAll chan results stats sum = Ok (results ++ chan, stats', sum') /\
    StatusCodes stats' = Some m' /\
    wrap64 (Total stats') = wrap64 (Total stats + Z.of_nat (length chan)) /\
    wrap64 (index m' 200) = wrap64 (index m 200 + Z.of_nat (length (times200 chan))) /\
    wrap64 sum' = wrap64 (sum + sumList (times200 chan)) /\
    Max200Time stats' = foldl Z.max (Max200Time stats) (times200 chan) /\
    Average200Time stats' = Average200Time stats /\
    (inRange stats sum -> inRange stats' sum').
Proof.
  induction chan as [|result rest IH]; intros results stats sum m Hm.
  - exists stats, sum, m. simpl. rewrite app_nil_r, !Z.add_0_r. tauto.
  - destruct (updateCrawlStats_fields result stats sum m Hm)
      as (stats1 & sum1 & Hu & Ht & Hc & Ha & H200 & Hn200).
    destruct (IH (results ++ [result]) stats1 sum1 _ Hc)
      as (stats' & sum' & m' & Hr & Hc' & Ht' & Hi' & Hs' & Hmx' & Ha' & Hw').
    exists stats', sum', m'. simpl receiveAll. rewrite Hu. simpl.
    rewrite Hr, <- app_assoc. split; [reflexivity|]. split; [exact Hc'|].
    rewrite times200_cons.
    split; [|split; [|split; [|split; [|split]]]].
    + rewrite Ht', Ht. unfold add64. rewrite wrap64_add_l. f_equal.
      simpl length. lia.
    + rewrite Hi'. unfold index at 1.
      destruct (Z.eqb_spec (StatusCode result) 200) as [He|Hne].
      * rewrite He, lookup_insert_eq. simpl. unfold add64. rewrite wrap64_add_l.
        f_equal. lia.
      * rewrite lookup_insert_ne by exact Hne. reflexivity.
    + rewrite Hs'. destruct (Z.eqb_spec (StatusCode result) 200) as [He|Hne].
      * destruct (H200 He) as (-> & _). unfold add64. rewrite wrap64_add_l.
        simpl. f_equal. lia.
      * destruct (Hn200 Hne) as (-> & _). reflexivity.
    + rewrite Hmx'. destruct (Z.eqb_spec (StatusCode result) 200) as [He|Hne].
      * destruct (H200 He) as (_ & -> & _). reflexivity.
      * destruct (Hn200 Hne) as (_ & -> & _). reflexivity.
    + congruence.
    + intros (Hr1 & Hr2 & Hr3). apply Hw'. unfold inRange.
      rewrite Ht, Hc. split; [apply wrap64_range|]. split.
      * destruct (Z.eqb_spec (StatusCode result) 200) as [He|Hne].
        -- destruct (H200 He) as (-> & _). apply wrap64_range.
        -- destruct (Hn200 Hne) as (-> & _). exact Hr2.
      * simpl. unfold index at 1.
        destruct (decide (StatusCode result = 200)) as [He|Hne].
        -- rewrite He, lookup_insert_eq. apply wrap64_range.
        -- rewrite lookup_insert_ne by exact Hne. rewrite Hm in Hr3. exact Hr3.
Qed.

(** A pass that starts from the fresh stats, as crawlUrls starts it. *)
Lemma receiveAll_fresh chan :
  exists stats sum,
    receiveAll chan [] freshCrawlStats 0 = Ok (chan, stats, sum) /\
    Total stats = wrap64 (Z.of_nat (length chan)) /\
    code_count (StatusCodes stats) 200 = wrap64 (Z.of_nat (length (times200 chan))) /\
    is_Some (StatusCodes stats) /\
    sum = wrap64 (sumList (times200 chan)) /\
    Max200Time stats = foldl Z.max 0 (times200 chan) /\
    Average200Time stats = 0.
Proof.
  destruct (receiveAll_spec chan [] freshCrawlStats 0 ∅ eq_refl)
    as (stats & sum & m & Hr & Hc & Ht & Hi & Hs & Hmx & Ha & Hw).
  destruct Hw as (Hr1 & Hr2 & Hr3).
  { repeat split; vm_compute; discriminate. }
  exists stats, sum. rewrite Hc in *. simpl in *.
  rewrite wrap64_id in Ht, Hi, Hs by assumption.
  repeat split; try assumption. eauto.
Qed.

Lemma times200_all_200 pass :
  Forall (fun result => StatusCode result = 200) pass ->
  times200 pass = map serverTimeOf pass.
Proof.
  induction 1 as [|result pass H200 _ IH]; [reflexivity|].
  rewrite times200_cons, H200, IH. reflexivity.
Qed.

Lemma times200_length_le pass : (length (times200 pass) <= length pass)%nat.
Proof.
  induction pass as [|result pass IH]; [reflexivity|].
  rewrite times200_cons. destruct (StatusCode result =? 200); simpl; lia.
Qed.

Lemma sumList_nonneg ts : Forall (fun t => 0 <= t) ts -> 0 <= sumList ts.
Proof. induction 1; simpl; lia. Qed.

Lemma foldl_max_bounds ts : forall a,
  a <= foldl Z.max a ts /\
  Forall (fun t => t <= foldl Z.max a ts) ts /\
  (foldl Z.max a ts = a \/ In (foldl Z.max a ts) ts).
Proof.
  induction ts as [|t ts IH]; intros a; simpl.
  - split; [lia|]. split; [constructor | left; reflexivity].
  - destruct (IH (Z.max a t)) as (Hge & Hall & Hin).
    split; [lia|]. split; [constructor; [lia | exact Hall]|].
    destruct Hin as [Heq|Hin]; [|right; right; exact Hin].
    rewrite Heq. destruct (Z.max_spec a t) as [[_ ->]|[_ ->]]; [right; left|left]; reflexivity.
Qed.

(** The maximum of a non-empty list of non-negative times, found by the
    running maximum that starts at zero. *)
Lemma foldl_max_is_max ts :
  ts <> [] -> Forall (fun t => 0 <= t) ts ->
  In (foldl Z.max 0 ts) ts /\ Forall (fun t => t <= foldl Z.max 0 ts) ts.
Proof.
  intros Hne Hnn. destruct (foldl_max_bounds ts 0) as (_ & Hall & [Heq|Hin]).
  - split; [|exact Hall]. rewrite Heq in *.
    destruct ts as [|t ts]; [contradiction|]. left.
    inversion Hall; subst. inversion Hnn; subst. lia.
  - split; assumption.
Qed.

(** ** Properties of finalizeAverage *)

Lemma finalizeAverage_fields stats sum :
  Total (finalizeAverage stats sum) = Total stats /\
  StatusCodes (finalizeAverage stats sum) = StatusCodes stats /\
  Max200Time (finalizeAverage stats sum) = Max200Time stats /\
  Non200Urls (finalizeAverage stats sum) = Non200Urls stats /\
  Average200Time (finalizeAverage stats sum) =
    if code_count (StatusCodes stats) 200 >? 0
    then quot64 sum (code_count (StatusCodes stats) 200)
    else Average200Time stats.
Proof.
  unfold finalizeAverage. destruct (code_count (StatusCodes stats) 200 >? 0); simpl; tauto.
Qed.

Lemma quot64_nonneg x n :
  0 <= x <= max_int64 -> 0 < n -> quot64 x n = x / n.
Proof.
  intros Hx Hn. unfold quot64. rewrite Z.quot_div_nonneg by lia.
  apply wrap64_id. unfold in_int64, min_int64. split.
  - pose proof (Z.div_pos x n ltac:(lia) Hn). lia.
  - pose proof (Z.div_le_upper_bound x n x Hn ltac:(nia)). lia.
Qed.

(** C5.  Folding N >= 1 outcomes of status 200 with elapsed times t1..tN
    (the [serverTimeOf] of the outcomes, none negative) into the fresh stats of
    a pass and finalizing the average gives [Average200Time = sum(ti)/N] (the
    sum and the quotient as Go takes them; the exact quotient when the sum
    fits a Duration) and [Max200Time = max(ti)]: one of the ti, and not
    below any of them. *)
Theorem fold_200s_average_and_max (pass : list HTTPResponse) :
  pass <> [] ->
  Forall (fun result => StatusCode result = 200 /\ 0 <= serverTimeOf result) pass ->
  Z.of_nat (length pass) <= max_int64 ->
  exists stats sum,
    receiveAll pass [] freshCrawlStats 0 = Ok (pass, stats, sum) /\
    Average200Time (finalizeAverage stats sum) =
      quot64 (wrap64 (sumList (map serverTimeOf pass))) (Z.of_nat (length pass)) /\
    (sumList (map serverTimeOf pass) <= max_int64 ->
     Average200Time (finalizeAverage stats sum) =
       sumList (map serverTimeOf pass) / Z.of_nat (length pass)) /\
    In (Max200Time (finalizeAverage stats sum)) (map serverTimeOf pass) /\
    Forall (fun t => t <= Max200Time (finalizeAverage stats sum)) (map serverTimeOf pass).
Proof.
  intros Hne Hall Hlen.
  assert (H200 : Forall (fun result => StatusCode result = 200) pass)
    by (eapply Forall_impl; [exact Hall | intros ? [? _]; assumption]).
  assert (Hnn : Forall (fun t => 0 <= t) (map serverTimeOf pass)).
  { apply Forall_map. eapply Forall_impl; [exact Hall | intros ? [_ ?]; assumption]. }
  destruct (receiveAll_fresh pass) as (stats & sum & Hr & _ & Hc & _ & Hs & Hmx & _).
  rewrite times200_all_200 in Hc, Hs, Hmx by exact H200.
  rewrite length_map in Hc.
  assert (Hpos : 0 < Z.of_nat (length pass)) by (destruct pass; [contradiction | simpl; lia]).
  rewrite wrap64_id in Hc
    by (unfold in_int64, min_int64; unfold max_int64 in *; lia).
  exists stats, sum. split; [exact Hr|].
  destruct (finalizeAverage_fields stats sum) as (_ & _ & -> & _ & ->).
  rewrite Hc, Hs, Hmx.
  assert (Hgt : (Z.of_nat (length pass) >? 0) = true) by (apply Z.gtb_lt; exact Hpos).
  rewrite Hgt. split; [reflexivity|]. split.
  - intros Hle. pose proof (sumList_nonneg _ Hnn).
    rewrite wrap64_id by (unfold in_int64, min_int64; unfold max_int64 in *; lia).
    apply quot64_nonneg; lia.
  - apply foldl_max_is_max; [|exact Hnn]. destruct pass; [contradiction | discriminate].
Qed.

(** The running stats of a pass, after any number of outcomes: the map is
    allocated, the maximum is not negative and the sum is a 64-bit number. *)
Lemma running_pass_bounds (received : list HTTPResponse) :
  exists stats sum,
    receiveAll received [] freshCrawlStats 0 = Ok (received, stats, sum) /\
    is_Some (StatusCodes stats) /\
    0 <= Max200Time stats /\
    in_int64 sum.
Proof.
  destruct (receiveAll_fresh received) as (stats & sum & Hr & _ & _ & Hc & Hs & Hmx & _).
  exists stats, sum. split; [exact Hr|]. split; [exact Hc|]. split.
  - rewrite Hmx. apply foldl_max_bounds.
  - rewrite Hs. apply wrap64_range.
Qed.

(** C10.  An outcome whose timing record is nil is folded with an elapsed
    time of zero.  With status 200 it adds 0 to the success-time sum, so that
    the sum stays what it was while the 200-count grows and the finalized
    average does not grow, and it leaves [Max200Time] (never negative in a
    pass) where it was.  With another status the recorded CrawlResult has
    [Time = 0]. *)
Theorem nil_timing_counts_as_zero (result : HTTPResponse) (stats : CrawlStats)
    (sum : Duration) (m : gmap Z Z) :
  Result result = None ->
  StatusCodes stats = Some m ->
  exists stats' sum',
    updateCrawlStats result stats sum = Ok (stats', sum') /\
    serverTimeOf result = 0 /\
    (StatusCode result = 200 ->
       sum' = add64 sum 0 /\
       (in_int64 sum -> sum' = sum) /\
       Max200Time stats' = Z.max (Max200Time stats) 0 /\
       (0 <= Max200Time stats -> Max200Time stats' = Max200Time stats) /\
       Non200Urls stats' = Non200Urls stats /\
       (0 <= sum <= max_int64 -> 0 < index m 200 < max_int64 ->
        Average200Time (finalizeAverage stats' sum') = sum / (index m 200 + 1) /\
        Average200Time (finalizeAverage stats sum) = sum / index m 200 /\
        Average200Time (finalizeAverage stats' sum') <=
          Average200Time (finalizeAverage stats sum))) /\
    (StatusCode result <> 200 ->
       sum' = sum /\
       Max200Time stats' = Max200Time stats /\
       Non200Urls stats' = Non200Urls stats ++
         [ {| CrawlResult.URL := URL result;
              CrawlResult.StatusCode := StatusCode result;
              CrawlResult.Time := 0;
              CrawlResult.LinkingURLs := [] |} ]).
Proof.
  intros Hnil Hm.
  assert (Hz : serverTimeOf result = 0) by (unfold serverTimeOf; rewrite Hnil; reflexivity).
  destruct (updateCrawlStats_fields result stats sum m Hm)
    as (stats' & sum' & Hu & Ht & Hc & Ha & H200 & Hn200).
  rewrite Hz in H200, Hn200.
  exists stats', sum'. split; [exact Hu|]. split; [exact Hz|]. split.
  - intros He. destruct (H200 He) as (Hs & Hmx & Hurls).
    split; [exact Hs|]. split.
    { intros Hr. rewrite Hs, add64_0_r. apply wrap64_id, Hr. }
    split; [exact Hmx|]. split; [intros; lia|]. split; [exact Hurls|].
    intros Hsum Hn.
    assert (Hs' : sum' = sum).
    { rewrite Hs, add64_0_r. apply wrap64_id.
      unfold in_int64, min_int64. unfold max_int64 in *. lia. }
    assert (Hn' : code_count (StatusCodes stats') 200 = index m 200 + 1).
    { rewrite Hc, He. simpl. unfold index at 1. rewrite lookup_insert_eq. simpl.
      apply wrap64_id. unfold in_int64, min_int64. unfold max_int64 in *. lia. }
    destruct (finalizeAverage_fields stats' sum') as (_ & _ & _ & _ & ->).
    destruct (finalizeAverage_fields stats sum) as (_ & _ & _ & _ & ->).
    rewrite Hn', Hm, Hs'. simpl.
    assert (H1 : (index m 200 + 1 >? 0) = true) by (apply Z.gtb_lt; lia).
    assert (H2 : (index m 200 >? 0) = true) by (apply Z.gtb_lt; lia).
    rewrite H1, H2, !quot64_nonneg by lia.
    split; [reflexivity|]. split; [reflexivity|].
    apply Z.div_le_compat_l; lia.
  - intros Hne. exact (Hn200 Hne).
Qed.

(** ** Properties of the two passes and of AsyncCrawl *)

Lemma crawlUrls_fresh urls config signal :
  exists stats sum,
    crawlUrls urls config signal =
      Ok (HTTPGetter config urls (HTTP config) (Throttle config)
            (addInterruptHandlers signal), stats, sum) /\
    is_Some (StatusCodes stats) /\
    Average200Time stats = 0.
Proof.
  unfold crawlUrls.
  destruct (receiveAll_fresh (HTTPGetter config urls (HTTP config) (Throttle config)
                                (addInterruptHandlers signal)))
    as (stats & sum & Hr & _ & _ & Hc & _ & _ & Ha).
  exists stats, sum. tauto.
Qed.

Lemma crawlLinks_returns sourceResults sourceURLs sourceConfig signal :
  exists linksResults linksStats sum,
    crawlLinks sourceResults sourceURLs sourceConfig signal =
      Ok (linksResults, linksStats, sum) /\
    Average200Time linksStats = 0.
Proof.
  unfold crawlLinks.
  destruct (crawlUrls_fresh
              (linkedUrlsOf (linkedUrlsSetOf (Links_ sourceConfig) sourceResults sourceURLs))
              (linksConfigOf sourceConfig) signal) as (stats & sum & -> & _ & Ha).
  simpl. eexists _, _, _. split; [reflexivity|]. exact Ha.
Qed.

Lemma crawlPhases_returns urls config signal1 signal2 :
  exists merged sum, crawlPhases urls config signal1 signal2 = Ok (merged, sum).
Proof.
  unfold crawlPhases.
  destruct (crawlUrls_fresh urls config signal1) as (stats & sum & -> & _ & Ha).
  simpl. destruct (ParseLinks (HTTP config)); [|eauto].
  destruct (crawlLinks_returns
              (HTTPGetter config urls (HTTP config) (Throttle config)
                 (addInterruptHandlers signal1)) urls config signal2)
    as (lr & ls & lsum & -> & Hla).
  simpl. destruct (MergeCrawlStats_defined stats ls) as [merged ->].
  - left. split; assumption.
  - simpl. eauto.
Qed.

(** C3.  AsyncCrawl always returns, and its error is read off the merged
    stats (the stats of the first pass when there is no second one): the
    "No URL crawled" error when the merged [Total] is 0; otherwise the
    "different status code" error when the merged [Total] differs from the
    merged count of status 200; otherwise no error.  The stats are returned in
    every case: they are the merged stats with the average finalized. *)
Theorem AsyncCrawl_error_from_merged_stats (urls : list string) (config : CrawlConfig)
    (signal1 signal2 : bool) :
  exists merged sum stopped err,
    crawlPhases urls (prepareConfig config) signal1 signal2 = Ok (merged, sum) /\
    AsyncCrawl urls config signal1 signal2 =
      Ok (finalizeAverage merged sum, stopped, err) /\
    Total (finalizeAverage merged sum) = Total merged /\
    StatusCodes (finalizeAverage merged sum) = StatusCodes merged /\
    Non200Urls (finalizeAverage merged sum) = Non200Urls merged /\
    (Total merged = 0 -> err = Some "No URL crawled"%string) /\
    (Total merged <> 0 -> Total merged <> code_count (StatusCodes merged) 200 ->
     err = Some "Some URLs had a different status code than 200"%string) /\
    (Total merged <> 0 -> Total merged = code_count (StatusCodes merged) 200 ->
     err = None).
Proof.
  destruct (crawlPhases_returns urls (prepareConfig config) signal1 signal2)
    as (merged & sum & Hp).
  exists merged, sum, false, (crawlError (finalizeAverage merged sum)).
  split; [exact Hp|]. unfold AsyncCrawl. rewrite Hp. simpl.
  split; [reflexivity|].
  destruct (finalizeAverage_fields merged sum) as (Ht & Hc & _ & Hu & _).
  split; [exact Ht|]. split; [exact Hc|]. split; [exact Hu|].
  unfold crawlError. rewrite Ht, Hc.
  destruct (Z.eqb_spec (Total merged) 0) as [H0|H0];
    [|destruct (Z.eqb_spec (Total merged) (code_count (StatusCodes merged) 200)) as [H2|H2]];
    simpl; repeat split; intros; try reflexivity; contradiction.
Qed.

(** C8 (the code falls short of it).  Whatever the fetcher streams and
    whether or not an interrupt reaches either pass, AsyncCrawl returns
    [stopped = false]. *)
Theorem AsyncCrawl_stopped_is_false (urls : list string) (config : CrawlConfig)
    (signal1 signal2 : bool) :
  exists stats err, AsyncCrawl urls config signal1 signal2 = Ok (stats, false, err).
Proof.
  destruct (crawlPhases_returns urls (prepareConfig config) signal1 signal2)
    as (merged & sum & Hp).
  unfold AsyncCrawl. rewrite Hp. simpl. eauto.
Qed.

(** The invariant all along a crawl: the stats AsyncCrawl returns satisfy
    [Total == sum of the counts]. *)
Lemma receiveAll_totalIsSum chan : forall results stats sum results' stats' sum',
  totalIsSum stats ->
  receiveAll chan results stats sum = Ok (results', stats', sum') ->
  totalIsSum stats'.
Proof.
  induction chan as [|result rest IH]; intros results stats sum results' stats' sum' Hs Hr.
  - injection Hr as _ <- _. exact Hs.
  - simpl in Hr.
    destruct (updateCrawlStats result stats sum) as [[stats1 sum1]|p] eqn:Hu;
      [|discriminate].
    simpl in Hr. eapply IH; [|exact Hr].
    exact (updateCrawlStats_totalIsSum _ _ _ _ _ Hs Hu).
Qed.

Lemma crawlUrls_totalIsSum urls config signal results stats sum :
  crawlUrls urls config signal = Ok (results, stats, sum) -> totalIsSum stats.
Proof. unfold crawlUrls. apply receiveAll_totalIsSum. reflexivity. Qed.

Lemma AsyncCrawl_totalIsSum urls config signal1 signal2 stats stopped err :
  AsyncCrawl urls config signal1 signal2 = Ok (stats, stopped, err) ->
  totalIsSum stats.
Proof.
  unfold AsyncCrawl, crawlPhases.
  destruct (crawlUrls urls (prepareConfig config) signal1)
    as [[[results statsA] sumA]|p] eqn:HA; [|discriminate].
  pose proof (crawlUrls_totalIsSum _ _ _ _ _ _ HA) as HsA. simpl.
  assert (Hfin : forall merged sum, totalIsSum merged ->
                                    totalIsSum (finalizeAverage merged sum)).
  { intros merged sum Hm. unfold totalIsSum.
    destruct (finalizeAverage_fields merged sum) as (-> & -> & _). exact Hm. }
  destruct (CrawlExternalLinks (Links_ config) || CrawlHyperlinks (Links_ config)
            || CrawlImages (Links_ config)).
  - unfold crawlLinks.
    destruct (crawlUrls _ (linksConfigOf (prepareConfig config)) signal2)
      as [[[resultsB statsB] sumB]|p] eqn:HB; [|simpl; discriminate].
    pose proof (crawlUrls_totalIsSum _ _ _ _ _ _ HB) as HsB. simpl.
    match goal with |- context [MergeCrawlStats statsA ?b] =>
      destruct (MergeCrawlStats statsA b) as [merged|p] eqn:Hm; [|simpl; discriminate];
      apply MergeCrawlStats_totalIsSum in Hm; [|exact HsA|exact HsB] end.
    simpl. intros [= <- _ _]. apply Hfin, Hm.
  - simpl. intros [= <- _ _]. apply Hfin, HsA.
Qed.

(** ** Properties of the link expansion *)

Lemma extend_extend o l1 l2 : extend (extend o l1) l2 = extend o (l1 ++ l2).
Proof.
  destruct l1 as [|x l1]; [reflexivity|].
  destruct l2 as [|y l2]; simpl.
  - rewrite app_nil_r. reflexivity.
  - rewrite <- app_assoc. reflexivity.
Qed.

Lemma recordLink_lookup links result set link target :
  recordLink links result set link !! target =
  if followed links link && bool_decide (URL_String (TargetURL link) = target)
  then Some (default [] (set !! target) ++ [URL result])
  else set !! target.
Proof.
  unfold recordLink, followed.
  destruct (IsExternal link && negb (CrawlExternalLinks links)); [reflexivity|].
  destruct (LinkType_eqb (Type_ link) Hyperlink && negb (CrawlHyperlinks links));
    [reflexivity|].
  destruct (LinkType_eqb (Type_ link) Image && negb (CrawlImages links));
    [reflexivity|].
  simpl. case_bool_decide as Heq.
  - rewrite Heq. apply lookup_insert_eq.
  - apply lookup_insert_ne. exact Heq.
Qed.

Lemma recordLinks_lookup links result target ls : forall set,
  foldl (recordLink links result) set ls !! target =
  extend (set !! target) (referrersIn links target result ls).
Proof.
  unfold referrersIn.
  induction ls as [|link ls IH]; intros set; [reflexivity|].
  simpl. rewrite IH, recordLink_lookup.
  destruct (followed links link && bool_decide (URL_String (TargetURL link) = target));
    [|reflexivity].
  change (Some (default [] (set !! target) ++ [URL result]))
    with (extend (set !! target) [URL result]).
  rewrite extend_extend. reflexivity.
Qed.

Lemma scanResults_lookup links target sourceResults : forall set,
  foldl (fun set result => foldl (recordLink links result) set (Links result))
        set sourceResults !! target =
  extend (set !! target) (referrers links sourceResults target).
Proof.
  unfold referrers.
  induction sourceResults as [|result rs IH]; intros set; [reflexivity|].
  simpl. rewrite IH, recordLinks_lookup, extend_extend. reflexivity.
Qed.

Lemma scanLinks_lookup links sourceResults target :
  scanLinks links sourceResults !! target =
  match referrers links sourceResults target with
  | [] => None
  | l => Some l
  end.
Proof.
  unfold scanLinks. rewrite scanResults_lookup, lookup_empty.
  destruct (referrers links sourceResults target); reflexivity.
Qed.

Lemma dropCrawled_lookup sourceURLs target : forall set,
  dropCrawled sourceURLs set !! target =
  if bool_decide (target ∈ sourceURLs) then None else set !! target.
Proof.
  unfold dropCrawled.
  induction sourceURLs as [|u us IH]; intros set; cbn [foldl].
  - rewrite bool_decide_eq_false_2; [reflexivity|]. apply not_elem_of_nil.
  - rewrite IH. destruct (decide (u = target)) as [->|Hne].
    + rewrite lookup_delete_eq, (bool_decide_eq_true_2 (target ∈ target :: us)).
      * destruct (bool_decide (target ∈ us)); reflexivity.
      * apply list_elem_of_here.
    + rewrite lookup_delete_ne by exact Hne.
      assert (Hiff : target ∈ u :: us <-> target ∈ us).
      { rewrite elem_of_cons. split; [intros [->|H]; [contradiction|exact H] | auto]. }
      rewrite (bool_decide_ext _ _ Hiff). reflexivity.
Qed.

Lemma linkedUrlsSetOf_lookup links sourceResults sourceURLs target :
  linkedUrlsSetOf links sourceResults sourceURLs !! target =
  if bool_decide (target ∈ sourceURLs) then None
  else match referrers links sourceResults target with
       | [] => None
       | l => Some l
       end.
Proof.
  unfold linkedUrlsSetOf. rewrite dropCrawled_lookup, scanLinks_lookup. reflexivity.
Qed.

Lemma linkedUrlsOf_elem (set : gmap string (list string)) target :
  target ∈ linkedUrlsOf set <-> is_Some (set !! target).
Proof.
  unfold linkedUrlsOf. rewrite list_elem_of_fmap. split.
  - intros ([k v] & -> & Hin). apply elem_of_map_to_list in Hin. simpl. eauto.
  - intros [v Hv]. exists (target, v). split; [reflexivity|].
    apply elem_of_map_to_list. exact Hv.
Qed.

Lemma referrers_nonempty links sourceResults target :
  referrers links sourceResults target <> [] <->
  exists result link,
    result ∈ sourceResults /\ link ∈ Links result /\
    followed links link = true /\ URL_String (TargetURL link) = target.
Proof.
  unfold referrers. split.
  - intros Hne.
    destruct (flat_map _ sourceResults) as [|u us] eqn:Hfm; [contradiction|].
    assert (Hin : In u (flat_map (fun result => referrersIn links target result (Links result))
                          sourceResults)) by (rewrite Hfm; left; reflexivity).
    apply in_flat_map in Hin as (result & Hres & Hu).
    unfold referrersIn in Hu. apply in_map_iff in Hu as (link & _ & Hl).
    apply filter_In in Hl as (Hl & Hc). apply andb_true_iff in Hc as (Hf & Ht).
    apply bool_decide_eq_true in Ht.
    exists result, link. rewrite <- !list_elem_of_In in *. tauto.
  - intros (result & link & Hres & Hl & Hf & Ht) Hnil.
    assert (Hin : In (URL result)
                     (flat_map (fun result => referrersIn links target result (Links result))
                        sourceResults)).
    { apply in_flat_map. exists result. rewrite <- list_elem_of_In. split; [exact Hres|].
      unfold referrersIn. apply in_map_iff. exists link. split; [reflexivity|].
      apply filter_In. rewrite <- list_elem_of_In. split; [exact Hl|].
      rewrite Hf. simpl. apply bool_decide_eq_true. exact Ht. }
    rewrite Hnil in Hin. destruct Hin.
Qed.

(** C6.  The URLs crawlLinks hands to the second pass are exactly the
    targets of the links that pass the three filters ([followed]) and that are
    not among the URLs of the first pass, each once; and the linking-URL list
    kept for such a target is the list of the source URLs of the results that
    reference it through such a link, in scan order, one entry per link. *)
Theorem crawlLinks_candidates (sourceResults : list HTTPResponse)
    (sourceURLs : list string) (sourceConfig : CrawlConfig) (signal : bool) :
  let linkedUrlsSet := linkedUrlsSetOf (Links_ sourceConfig) sourceResults sourceURLs in
  (exists linksStats sum,
     crawlLinks sourceResults sourceURLs sourceConfig signal =
       Ok (HTTPGetter sourceConfig (linkedUrlsOf linkedUrlsSet)
             {| ParseLinks := false; Settings := Settings (HTTP sourceConfig) |}
             (Throttle sourceConfig) (addInterruptHandlers signal),
           linksStats, sum)) /\
  (forall target,
     target ∈ linkedUrlsOf linkedUrlsSet <->
     (target ∉ sourceURLs) /\
     (exists result link,
        result ∈ sourceResults /\ link ∈ Links result /\
        followed (Links_ sourceConfig) link = true /\
        URL_String (TargetURL link) = target)) /\
  NoDup (linkedUrlsOf linkedUrlsSet) /\
  (forall target,
     target ∈ linkedUrlsOf linkedUrlsSet ->
     linkedUrlsSet !! target = Some (referrers (Links_ sourceConfig) sourceResults target)).
Proof.
  cbv zeta. split; [|split; [|split]].
  - destruct (crawlLinks_returns sourceResults sourceURLs sourceConfig signal)
      as (lr & ls & sum & Hc & _).
    exists ls, sum. rewrite Hc. unfold crawlLinks in Hc.
    destruct (crawlUrls_fresh
                (linkedUrlsOf (linkedUrlsSetOf (Links_ sourceConfig) sourceResults sourceURLs))
                (linksConfigOf sourceConfig) signal) as (stats' & sum' & Hu & _).
    rewrite Hu in Hc. simpl in Hc. injection Hc as <- _ _. reflexivity.
  - intros target. rewrite linkedUrlsOf_elem, linkedUrlsSetOf_lookup.
    rewrite <- referrers_nonempty. case_bool_decide as Hin.
    + split; [intros [? [=]] | intros [Hn _]; contradiction].
    + destruct (referrers (Links_ sourceConfig) sourceResults target) as [|u us].
      * split; [intros [? [=]] | intros [_ Hn]; contradiction].
      * split; [intros _; split; [exact Hin | discriminate] | eauto].
  - apply NoDup_fst_map_to_list.
  - intros target Hin. apply linkedUrlsOf_elem in Hin as [l Hl].
    rewrite linkedUrlsSetOf_lookup in *.
    destruct (bool_decide (target ∈ sourceURLs)); [discriminate|].
    destruct (referrers (Links_ sourceConfig) sourceResults target); [discriminate|].
    reflexivity.
Qed.

(** ** The two ways to the overall average *)

Lemma in_int64_between x hi : 0 <= x <= hi -> hi <= max_int64 -> in_int64 x.
Proof. unfold in_int64, min_int64, max_int64. lia. Qed.

Lemma sumList_nil_length ts : Z.of_nat (length ts) = 0 -> sumList ts = 0.
Proof. destruct ts; [reflexivity | simpl; lia]. Qed.

(** The numbers of a pass whose success times are not negative and do not
    overflow. *)
Lemma pass_numbers pass :
  Forall (fun t => 0 <= t) (times200 pass) ->
  sumList (times200 pass) <= max_int64 ->
  Z.of_nat (length (times200 pass)) <= max_int64 ->
  exists stats sum,
    receiveAll pass [] freshCrawlStats 0 = Ok (pass, stats, sum) /\
    code_count (StatusCodes stats) 200 = Z.of_nat (length (times200 pass)) /\
    sum = sumList (times200 pass) /\
    Average200Time stats = 0 /\
    Average200Time (finalizeAverage stats sum) =
      sumList (times200 pass) / Z.of_nat (length (times200 pass)) /\
    code_count (StatusCodes (finalizeAverage stats sum)) 200 =
      Z.of_nat (length (times200 pass)).
Proof.
  intros Hnn Hs Hn. pose proof (sumList_nonneg _ Hnn) as H0.
  destruct (receiveAll_fresh pass) as (stats & sum & Hr & _ & Hc & _ & Hsum & _ & Ha).
  rewrite wrap64_id in Hc by (apply (in_int64_between _ max_int64); lia).
  rewrite wrap64_id in Hsum by (apply (in_int64_between _ max_int64); lia).
  exists stats, sum. split; [exact Hr|]. split; [exact Hc|]. split; [exact Hsum|].
  split; [exact Ha|].
  destruct (finalizeAverage_fields stats sum) as (_ & -> & _ & _ & ->).
  split; [|exact Hc]. rewrite Hc, Hsum, Ha.
  destruct (Z.ltb_spec 0 (Z.of_nat (length (times200 pass)))) as [Hpos|Hz].
  - rewrite (proj2 (Z.gtb_lt _ _) Hpos). apply quot64_nonneg; lia.
  - assert (Hlen : Z.of_nat (length (times200 pass)) = 0) by lia.
    rewrite Hlen. simpl. symmetry. apply Z.div_0_r.
Qed.

Lemma mergeAverage_zero a b codes :
  Average200Time a = 0 -> Average200Time b = 0 -> mergeAverage a b codes = Ok 0.
Proof. unfold mergeAverage. intros -> ->. reflexivity. Qed.

(** The quotients of the two computations, compared as integers. *)
Lemma weighted_vs_direct sA sB nA nB :
  0 <= sA -> 0 <= sB -> 0 <= nA -> 0 <= nB ->
  (nA = 0 -> sA = 0) -> (nB = 0 -> sB = 0) ->
  (sA / nA * nA + sB / nB * nB) / (nA + nB) <= (sA + sB) / (nA + nB)
    <= (sA / nA * nA + sB / nB * nB) / (nA + nB) + 1 /\
  ((nA | sA) -> (nB | sB) ->
   (sA / nA * nA + sB / nB * nB) / (nA + nB) = (sA + sB) / (nA + nB)).
Proof.
  intros HsA HsB HnA HnB HzA HzB.
  assert (HA : sA / nA * nA <= sA /\ sA <= sA / nA * nA + nA - (if nA =? 0 then 0 else 1)).
  { destruct (Z.eqb_spec nA 0) as [->|Hne].
    - rewrite HzA by reflexivity. rewrite Z.div_0_r. lia.
    - pose proof (Z.mul_div_le sA nA ltac:(lia)).
      pose proof (Z.mul_succ_div_gt sA nA ltac:(lia)). lia. }
  assert (HB : sB / nB * nB <= sB /\ sB <= sB / nB * nB + nB - (if nB =? 0 then 0 else 1)).
  { destruct (Z.eqb_spec nB 0) as [->|Hne].
    - rewrite HzB by reflexivity. rewrite Z.div_0_r. lia.
    - pose proof (Z.mul_div_le sB nB ltac:(lia)).
      pose proof (Z.mul_succ_div_gt sB nB ltac:(lia)). lia. }
  split.
  - destruct (Z.eqb_spec (nA + nB) 0) as [Hz|Hnz].
    + rewrite Hz, !Z.div_0_r. lia.
    + assert (Hn : 0 < nA + nB) by lia. split.
      * apply Z.div_le_mono; lia.
      * rewrite <- (Z.div_add _ 1 (nA + nB)) by lia.
        apply Z.div_le_mono; [lia|].
        destruct (Z.eqb_spec nA 0), (Z.eqb_spec nB 0); lia.
  - intros [zA ->] [zB ->]. f_equal.
    destruct (Z.eqb_spec nA 0) as [->|HneA], (Z.eqb_spec nB 0) as [->|HneB];
      rewrite ?Z.div_0_r, ?Z.div_mul by assumption; lia.
Qed.

(** The weighted average of the merge, when the averages and counts are
    those of stats that are consistent (no average without a count) and the
    weighted sum does not overflow. *)
Lemma mergeAverage_weighted a b :
  0 <= Average200Time a -> 0 <= Average200Time b ->
  0 <= code_count (StatusCodes a) 200 -> 0 <= code_count (StatusCodes b) 200 ->
  (code_count (StatusCodes a) 200 = 0 -> Average200Time a = 0) ->
  (code_count (StatusCodes b) 200 = 0 -> Average200Time b = 0) ->
  Average200Time a * code_count (StatusCodes a) 200 +
    Average200Time b * code_count (StatusCodes b) 200 <= max_int64 ->
  code_count (StatusCodes a) 200 + code_count (StatusCodes b) 200 <= max_int64 ->
  mergeAverage a b (mergeCodes a b) =
    Ok ((Average200Time a * code_count (StatusCodes a) 200 +
         Average200Time b * code_count (StatusCodes b) 200) /
        (code_count (StatusCodes a) 200 + code_count (StatusCodes b) 200)).
Proof.
  set (qa := Average200Time a). set (qb := Average200Time b).
  set (na := code_count (StatusCodes a) 200). set (nb := code_count (StatusCodes b) 200).
  intros Hqa Hqb Hna Hnb Hza Hzb Hw Hn.
  unfold mergeAverage. fold qa qb na nb.
  destruct (Z.eqb_spec qa 0) as [Ea|Ea], (Z.eqb_spec qb 0) as [Eb|Eb]; simpl.
  { rewrite Ea, Eb. replace (0 * na + 0 * nb) with 0 by lia.
    rewrite Zdiv_0_l. reflexivity. }
  all: unfold Nanoseconds, Nanosecond, quo64; rewrite mergeCodes_index; fold na nb.
  all: assert (Hpa : 0 <= qa * na) by nia; assert (Hpb : 0 <= qb * nb) by nia.
  all: assert (Hm1 : mul64 qa na = qa * na)
         by (apply wrap64_id, (in_int64_between _ max_int64); lia).
  all: assert (Hm2 : mul64 qb nb = qb * nb)
         by (apply wrap64_id, (in_int64_between _ max_int64); lia).
  all: assert (Ha1 : add64 (qa * na) (qb * nb) = qa * na + qb * nb)
         by (apply wrap64_id, (in_int64_between _ max_int64); lia).
  all: assert (Ha2 : add64 na nb = na + nb)
         by (apply wrap64_id, (in_int64_between _ max_int64); lia).
  all: rewrite Hm1, Hm2, Ha1, Ha2.
  all: assert (Hpos : 0 < na + nb) by lia.
  all: destruct (Z.eqb_spec (na + nb) 0) as [|_]; [lia|]; simpl.
  all: rewrite quot64_nonneg by lia.
  all: unfold mul64; rewrite Z.mul_1_r; f_equal; apply wrap64_id.
  all: apply (in_int64_between _ (qa * na + qb * nb)); [|lia].
  all: split; [apply Z.div_pos; lia | apply Z.div_le_upper_bound; nia].
Qed.

(** C9, as amended.  For two passes whose success times are not negative
    and do not overflow, the average AsyncCrawl recomputes (combined sum by
    merged 200-count) and the weighted average MergeCrawlStats computes from
    the finalized averages are both defined; the weighted one is never above
    the direct one and falls short of it by at most one nanosecond, the
    truncation of the two finalized averages; they are equal when each pass's
    sum is a multiple of its 200-count. *)
Theorem direct_and_weighted_average (passA passB : list HTTPResponse) :
  Forall (fun t => 0 <= t) (times200 passA) ->
  Forall (fun t => 0 <= t) (times200 passB) ->
  sumList (times200 passA) + sumList (times200 passB) <= max_int64 ->
  Z.of_nat (length (times200 passA)) + Z.of_nat (length (times200 passB)) <= max_int64 ->
  exists direct weighted,
    directAverage passA passB = Ok direct /\
    weightedAverage passA passB = Ok weighted /\
    direct = (sumList (times200 passA) + sumList (times200 passB)) /
             (Z.of_nat (length (times200 passA)) + Z.of_nat (length (times200 passB))) /\
    weighted =
      (sumList (times200 passA) / Z.of_nat (length (times200 passA)) *
         Z.of_nat (length (times200 passA)) +
       sumList (times200 passB) / Z.of_nat (length (times200 passB)) *
         Z.of_nat (length (times200 passB))) /
      (Z.of_nat (length (times200 passA)) + Z.of_nat (length (times200 passB))) /\
    weighted <= direct <= weighted + 1 /\
    ((Z.of_nat (length (times200 passA)) | sumList (times200 passA)) ->
     (Z.of_nat (length (times200 passB)) | sumList (times200 passB)) ->
     weighted = direct).
Proof.
  intros HnnA HnnB Hsum Hlen.
  pose proof (sumList_nonneg _ HnnA) as H0A. pose proof (sumList_nonneg _ HnnB) as H0B.
  destruct (pass_numbers passA HnnA ltac:(lia) ltac:(lia))
    as (statsA & sumA & HrA & HcA & HsA & HaA & HfA & HfcA).
  destruct (pass_numbers passB HnnB ltac:(lia) ltac:(lia))
    as (statsB & sumB & HrB & HcB & HsB & HaB & HfB & HfcB).
  set (sA := sumList (times200 passA)) in *. set (sB := sumList (times200 passB)) in *.
  set (nA := Z.of_nat (length (times200 passA))) in *.
  set (nB := Z.of_nat (length (times200 passB))) in *.
  assert (HnA : 0 <= nA) by (unfold nA; lia). assert (HnB : 0 <= nB) by (unfold nB; lia).
  assert (HzA : nA = 0 -> sA = 0) by apply sumList_nil_length.
  assert (HzB : nB = 0 -> sB = 0) by apply sumList_nil_length.
  destruct (weighted_vs_direct sA sB nA nB H0A H0B HnA HnB HzA HzB) as [Hbounds Hexact].
  exists ((sA + sB) / (nA + nB)), ((sA / nA * nA + sB / nB * nB) / (nA + nB)).
  split; [|split; [|split; [reflexivity|split; [reflexivity|split; assumption]]]].
  - unfold directAverage. rewrite HrA, HrB. simpl.
    assert (Hm : MergeCrawlStats statsA statsB =
                 Ok {| Total := add64 (Total statsA) (Total statsB);
                       StatusCodes := Some (mergeCodes statsA statsB);
                       Average200Time := 0;
                       Max200Time := Z.max (Max200Time statsA) (Max200Time statsB);
                       Non200Urls := Non200Urls statsA ++ Non200Urls statsB |}).
    { apply MergeCrawlStats_Ok. exists 0. split; [|reflexivity].
      apply mergeAverage_zero; assumption. }
    rewrite Hm. simpl. f_equal.
    match goal with |- Average200Time (finalizeAverage ?st ?su) = _ =>
      destruct (finalizeAverage_fields st su) as (_ & _ & _ & _ & ->) end.
    simpl. rewrite mergeCodes_index, HcA, HcB, HsA, HsB.
    assert (Ha1 : add64 nA nB = nA + nB)
      by (apply wrap64_id, (in_int64_between _ max_int64); lia).
    assert (Ha2 : add64 sA sB = sA + sB)
      by (apply wrap64_id, (in_int64_between _ max_int64); lia).
    rewrite Ha1, Ha2.
    destruct (Z.ltb_spec 0 (nA + nB)) as [Hpos|Hz].
    + rewrite (proj2 (Z.gtb_lt _ _) Hpos). apply quot64_nonneg; lia.
    + replace (nA + nB) with 0 by lia. simpl. symmetry. apply Z.div_0_r.
  - unfold weightedAverage. rewrite HrA, HrB. simpl.
    assert (HqA : 0 <= sA / nA <= sA /\ sA / nA * nA <= sA).
    { destruct (Z.eqb_spec nA 0) as [->|Hne]; [rewrite Z.div_0_r; lia|].
      pose proof (Z.mul_div_le sA nA ltac:(lia)).
      pose proof (Z.div_pos sA nA H0A ltac:(lia)). nia. }
    assert (HqB : 0 <= sB / nB <= sB /\ sB / nB * nB <= sB).
    { destruct (Z.eqb_spec nB 0) as [->|Hne]; [rewrite Z.div_0_r; lia|].
      pose proof (Z.mul_div_le sB nB ltac:(lia)).
      pose proof (Z.div_pos sB nB H0B ltac:(lia)). nia. }
    pose proof (mergeAverage_weighted (finalizeAverage statsA sumA)
                  (finalizeAverage statsB sumB)) as Hw.
    rewrite HfA, HfB, HfcA, HfcB in Hw.
    specialize (Hw ltac:(lia) ltac:(lia) HnA HnB).
    specialize (Hw ltac:(intros ->; apply Z.div_0_r) ltac:(intros ->; apply Z.div_0_r)).
    specialize (Hw ltac:(lia) ltac:(lia)).
    unfold MergeCrawlStats. rewrite Hw. reflexivity.
Qed.

(** [directAverage] is the average AsyncCrawl returns, for the two passes
    the fetcher streams. *)
Lemma AsyncCrawl_directAverage urls config signal1 signal2 :
  exists stats stopped err,
    AsyncCrawl urls config signal1 signal2 = Ok (stats, stopped, err) /\
    directAverage (firstPass urls config signal1)
                  (secondPass urls config signal1 signal2) =
      Ok (Average200Time stats).
Proof.
  unfold AsyncCrawl, crawlPhases, directAverage, secondPass.
  unfold crawlUrls at 1. fold (firstPass urls config signal1).
  destruct (receiveAll_fresh (firstPass urls config signal1))
    as (statsA & sumA & HrA & _ & HcA & _ & HsA & _ & HaA).
  rewrite HrA. simpl.
  destruct (CrawlExternalLinks (Links_ config) || CrawlHyperlinks (Links_ config)
            || CrawlImages (Links_ config)) eqn:Hparse.
  - unfold crawlLinks, crawlUrls. simpl.
    match goal with |- context [receiveAll ?chan [] freshCrawlStats 0] =>
      destruct (receiveAll_fresh chan) as (statsB & sumB & HrB & _ & _ & _ & _ & _ & HaB);
      rewrite HrB end.
    simpl. unfold MergeCrawlStats at 1 2. unfold mergeAverage. simpl.
    rewrite HaA, HaB. simpl. eexists _, _, _. split; [reflexivity|].
    f_equal.
    repeat match goal with |- context [finalizeAverage ?st ?su] =>
      let H := fresh in
      destruct (finalizeAverage_fields st su) as (_ & _ & _ & _ & H);
      rewrite H; clear H end.
    reflexivity.
  - simpl. unfold MergeCrawlStats. unfold mergeAverage. simpl. rewrite HaA. simpl.
    eexists _, _, _. split; [reflexivity|]. f_equal.
    repeat match goal with |- context [finalizeAverage ?st ?su] =>
      let H := fresh in
      destruct (finalizeAverage_fields st su) as (_ & _ & _ & _ & H);
      rewrite H; clear H end.
    simpl. rewrite mergeCodes_index. simpl.
    rewrite HaA, HcA, HsA, !add64_0_r, !wrap64_idemp. reflexivity.
Qed.

(** ** A pass, outcome by outcome *)

Lemma countStatus_cons k result pass :
  countStatus k (result :: pass) =
  if StatusCode result =? k then S (countStatus k pass) else countStatus k pass.
Proof. unfold countStatus. simpl. destruct (StatusCode result =? k); reflexivity. Qed.

Lemma non200Results_cons result pass :
  non200Results (result :: pass) =
  if StatusCode result =? 200 then non200Results pass
  else toCrawlResult result :: non200Results pass.
Proof. unfold non200Results. simpl. destruct (StatusCode result =? 200); reflexivity. Qed.

Lemma countStatus_200 pass : countStatus 200 pass = length (times200 pass).
Proof. unfold countStatus, times200. rewrite length_map. reflexivity. Qed.

Lemma receiveAll_tally chan : forall results stats sum m,
  StatusCodes stats = Some m ->
  exists stats' sum' m',
    receiveAll chan results stats sum = Ok (results ++ chan, stats', sum') /\
    StatusCodes stats' = Some m' /\
    (forall k, wrap64 (index m' k) =
               wrap64 (index m k + Z.of_nat (countStatus k chan))) /\
    (forall k, in_int64 (index m k) -> in_int64 (index m' k)) /\
    (forall k, m' !! k = None <-> m !! k = None /\ countStatus k chan = 0%nat) /\
    Non200Urls stats' = Non200Urls stats ++ non200Results chan.
Proof.
  induction chan as [|result rest IH]; intros results stats sum m Hm.
  - exists stats, sum, m. simpl. rewrite !app_nil_r. split; [reflexivity|].
    split; [exact Hm|]. split; [intros k; f_equal; unfold countStatus; simpl; lia|].
    split; [tauto|]. split; [|reflexivity].
    intros k. unfold countStatus. simpl. tauto.
  - destruct (updateCrawlStats_fields result stats sum m Hm)
      as (stats1 & sum1 & Hu & _ & Hc & _ & H200 & Hn200).
    destruct (IH (results ++ [result]) stats1 sum1 _ Hc)
      as (stats' & sum' & m' & Hr & Hc' & Hi' & Hw' & Hnone' & Hurls').
    exists stats', sum', m'. simpl receiveAll. rewrite Hu. simpl.
    rewrite Hr, <- app_assoc. split; [reflexivity|]. split; [exact Hc'|].
    split; [|split; [|split]].
    + intros k. rewrite Hi', countStatus_cons. unfold index at 1.
      destruct (Z.eqb_spec (StatusCode result) k) as [He|Hne].
      * rewrite He, lookup_insert_eq. simpl. unfold add64. rewrite wrap64_add_l.
        f_equal. lia.
      * rewrite lookup_insert_ne by exact Hne. reflexivity.
    + intros k Hk. apply Hw'. unfold index at 1.
      destruct (decide (StatusCode result = k)) as [He|Hne].
      * rewrite He, lookup_insert_eq. apply wrap64_range.
      * rewrite lookup_insert_ne by exact Hne. exact Hk.
    + intros k. rewrite Hnone', countStatus_cons.
      destruct (Z.eqb_spec (StatusCode result) k) as [He|Hne].
      * rewrite He, lookup_insert_eq. split; [intros [[=] _] | intros [_ [=]]].
      * rewrite lookup_insert_ne by exact Hne. tauto.
    + rewrite Hurls', non200Results_cons.
      destruct (Z.eqb_spec (StatusCode result) 200) as [He|Hne].
      * destruct (H200 He) as (_ & _ & ->). reflexivity.
      * destruct (Hn200 Hne) as (_ & _ & ->). rewrite <- app_assoc. reflexivity.
Qed.

(** The stats of a pass that starts from the fresh stats, in closed form. *)
Lemma receiveAll_closed chan :
  exists stats sum,
    receiveAll chan [] freshCrawlStats 0 = Ok (chan, stats, sum) /\
    Total stats = wrap64 (Z.of_nat (length chan)) /\
    (forall k, code_count (StatusCodes stats) k = wrap64 (Z.of_nat (countStatus k chan))) /\
    (forall k, entry (StatusCodes stats) k = None <-> countStatus k chan = 0%nat) /\
    Non200Urls stats = non200Results chan /\
    sum = wrap64 (sumList (times200 chan)) /\
    Max200Time stats = foldl Z.max 0 (times200 chan) /\
    Average200Time stats = 0.
Proof.
  destruct (receiveAll_fresh chan) as (stats & sum & Hr & Ht & _ & _ & Hs & Hmx & Ha).
  destruct (receiveAll_tally chan [] freshCrawlStats 0 ∅ eq_refl)
    as (stats' & sum' & m' & Hr' & Hc' & Hi' & Hw' & Hnone' & Hurls').
  simpl in Hr'. rewrite Hr in Hr'. injection Hr' as <- <-.
  exists stats, sum. split; [exact Hr|]. split; [exact Ht|].
  rewrite Hc'. simpl. split; [|split; [|tauto]].
  - intros k. rewrite <- (wrap64_id (index m' k)).
    + rewrite Hi'. unfold index at 1. rewrite lookup_empty. reflexivity.
    + apply Hw'. unfold index. rewrite lookup_empty. simpl.
      split; vm_compute; discriminate.
  - intros k. rewrite Hnone', lookup_empty. tauto.
Qed.

Lemma non200Results_length pass :
  (countStatus 200 pass + length (non200Results pass) = length pass)%nat.
Proof.
  induction pass as [|result pass IH]; [reflexivity|].
  rewrite countStatus_cons, non200Results_cons.
  destruct (StatusCode result =? 200); simpl; lia.
Qed.

Lemma countStatus_le k pass : (countStatus k pass <= length pass)%nat.
Proof.
  induction pass as [|result pass IH]; [reflexivity|].
  rewrite countStatus_cons. destruct (StatusCode result =? k); simpl; lia.
Qed.

(** X6.  crawlUrls accounts for every outcome the fetcher streams, as long as
    their number fits an [int]: it returns the outcomes in the order of
    arrival; [Total] is their number; the count of a status code is the number
    of outcomes with that code, and a code no outcome carries has no entry;
    [Non200Urls] holds one record for each outcome whose status is not 200, in
    the order of arrival, so that [Total] is the 200-count plus the length of
    [Non200Urls]; and [Average200Time] is left at zero. *)
Theorem crawlUrls_accounts (urls : list string) (config : CrawlConfig) (signal : bool) :
  Z.of_nat (length (HTTPGetter config urls (HTTP config) (Throttle config)
                      (addInterruptHandlers signal))) <= max_int64 ->
  exists stats sum,
    crawlUrls urls config signal =
      Ok (HTTPGetter config urls (HTTP config) (Throttle config)
            (addInterruptHandlers signal), stats, sum) /\
    Total stats = Z.of_nat (length (HTTPGetter config urls (HTTP config) (Throttle config)
                                      (addInterruptHandlers signal))) /\
    (forall k, code_count (StatusCodes stats) k =
               Z.of_nat (countStatus k (HTTPGetter config urls (HTTP config)
                                          (Throttle config) (addInterruptHandlers signal)))) /\
    (forall k, entry (StatusCodes stats) k = None <->
               countStatus k (HTTPGetter config urls (HTTP config) (Throttle config)
                                (addInterruptHandlers signal)) = 0%nat) /\
    Non200Urls stats =
      non200Results (HTTPGetter config urls (HTTP config) (Throttle config)
                       (addInterruptHandlers signal)) /\
    Total stats = code_count (StatusCodes stats) 200 + Z.of_nat (length (Non200Urls stats)) /\
    Average200Time stats = 0.
Proof.
  unfold crawlUrls.
  generalize (HTTPGetter config urls (HTTP config) (Throttle config)
                (addInterruptHandlers signal)).
  intros chan Hlen.
  destruct (receiveAll_closed chan)
    as (stats & sum & Hr & Ht & Hc & Hnone & Hurls & _ & _ & Ha).
  assert (Hk : forall k, code_count (StatusCodes stats) k = Z.of_nat (countStatus k chan)).
  { intros k. rewrite Hc. apply wrap64_id, (in_int64_between _ max_int64); [|lia].
    pose proof (countStatus_le k chan). lia. }
  assert (Ht' : Total stats = Z.of_nat (length chan)).
  { rewrite Ht. apply wrap64_id, (in_int64_between _ max_int64); lia. }
  exists stats, sum. split; [exact Hr|]. split; [exact Ht'|]. split; [exact Hk|].
  split; [exact Hnone|]. split; [exact Hurls|]. split; [|exact Ha].
  rewrite Ht', Hk, Hurls. pose proof (non200Results_length chan). lia.
Qed.

(** ** The order of arrival does not matter *)

Lemma filter_Permutation_bool {A} (f : A -> bool) (l l' : list A) :
  Permutation l l' -> Permutation (List.filter f l) (List.filter f l').
Proof.
  induction 1 as [|x l l' _ IH|x y l|l l' l'' _ IH1 _ IH2]; simpl.
  - constructor.
  - destruct (f x); [constructor|]; exact IH.
  - destruct (f x), (f y); try reflexivity. apply perm_swap.
  - etransitivity; eassumption.
Qed.

Lemma sumList_Permutation ts ts' : Permutation ts ts' -> sumList ts = sumList ts'.
Proof.
  induction 1 as [|x l l' _ IH|x y l|l l' l'' _ IH1 _ IH2]; simpl; lia.
Qed.

Lemma foldl_max_Permutation ts ts' :
  Permutation ts ts' -> forall a, foldl Z.max a ts = foldl Z.max a ts'.
Proof.
  induction 1 as [|x l l' _ IH|x y l|l l' l'' _ IH1 _ IH2]; intros a; simpl.
  - reflexivity.
  - apply IH.
  - f_equal. lia.
  - rewrite IH1. apply IH2.
Qed.

Lemma times200_Permutation pass pass' :
  Permutation pass pass' -> Permutation (times200 pass) (times200 pass').
Proof. intros H. unfold times200. apply Permutation_map, filter_Permutation_bool, H. Qed.

Lemma countStatus_Permutation k pass pass' :
  Permutation pass pass' -> countStatus k pass = countStatus k pass'.
Proof.
  intros H. unfold countStatus. apply Permutation_length, filter_Permutation_bool, H.
Qed.

(** X7.  The stats of a pass do not depend on the order in which the
    outcomes arrive: two streams that hold the same outcomes in different
    orders give the same [Total], the same [StatusCodes] map, the same
    success-time sum, the same [Max200Time] and the same finalized average;
    [Non200Urls] holds the same records, in the order of arrival. *)
Theorem pass_order_independent (chan chan' : list HTTPResponse) :
  Permutation chan chan' ->
  exists stats sum stats' sum',
    receiveAll chan [] freshCrawlStats 0 = Ok (chan, stats, sum) /\
    receiveAll chan' [] freshCrawlStats 0 = Ok (chan', stats', sum') /\
    Total stats = Total stats' /\
    StatusCodes stats = StatusCodes stats' /\
    sum = sum' /\
    Max200Time stats = Max200Time stats' /\
    Average200Time (finalizeAverage stats sum) =
      Average200Time (finalizeAverage stats' sum') /\
    Permutation (Non200Urls stats) (Non200Urls stats').
Proof.
  intros Hp.
  destruct (receiveAll_closed chan)
    as (stats & sum & Hr & Ht & Hc & Hnone & Hurls & Hs & Hmx & Ha).
  destruct (receiveAll_closed chan')
    as (stats' & sum' & Hr' & Ht' & Hc' & Hnone' & Hurls' & Hs' & Hmx' & Ha').
  assert (Hcodes : StatusCodes stats = StatusCodes stats').
  { destruct (receiveAll_fresh chan) as (s1 & t1 & Hr1 & _ & _ & [m Hm] & _).
    destruct (receiveAll_fresh chan') as (s2 & t2 & Hr2 & _ & _ & [m' Hm'] & _).
    rewrite Hr in Hr1. injection Hr1 as <- <-.
    rewrite Hr' in Hr2. injection Hr2 as <- <-.
    rewrite Hm, Hm'. f_equal. apply map_eq. intros k.
    specialize (Hc k). specialize (Hc' k). specialize (Hnone k). specialize (Hnone' k).
    rewrite Hm in Hc, Hnone. rewrite Hm' in Hc', Hnone'. simpl in *.
    rewrite <- (countStatus_Permutation k chan chan' Hp) in Hc', Hnone'.
    unfold index in Hc, Hc'.
    destruct (m !! k) as [v|], (m' !! k) as [v'|]; simpl in *.
    - congruence.
    - exfalso. destruct Hnone' as [H _]. specialize (H eq_refl).
      destruct Hnone as [_ H']. specialize (H' H). discriminate.
    - exfalso. destruct Hnone as [H _]. specialize (H eq_refl).
      destruct Hnone' as [_ H']. specialize (H' H). discriminate.
    - reflexivity. }
  assert (Hsum : sum = sum').
  { rewrite Hs, Hs'. f_equal. apply sumList_Permutation, times200_Permutation, Hp. }
  exists stats, sum, stats', sum'. split; [exact Hr|]. split; [exact Hr'|].
  split; [rewrite Ht, Ht'; f_equal; f_equal; apply Permutation_length, Hp|].
  split; [exact Hcodes|]. split; [exact Hsum|].
  split; [rewrite Hmx, Hmx'; apply foldl_max_Permutation, times200_Permutation, Hp|].
  split.
  - destruct (finalizeAverage_fields stats sum) as (_ & _ & _ & _ & ->).
    destruct (finalizeAverage_fields stats' sum') as (_ & _ & _ & _ & ->).
    rewrite Hcodes, Hsum, Ha, Ha'. reflexivity.
  - rewrite Hurls, Hurls'. unfold non200Results.
    apply Permutation_map, filter_Permutation_bool, Hp.
Qed.

(** ** More on MergeCrawlStats *)

(** X1.  The merged [StatusCodes] is the key-wise sum of the two maps, an
    absent key counting for zero: the merge returns unless it divides by
    zero, the map it returns is allocated (also when both operands have a nil
    map), the count of every code is the sum of the two counts (Go's addition;
    the exact sum when it fits an [int]), and a code has an entry exactly when
    it has one in an operand. *)
Theorem merge_codes_keywise (a b : CrawlStats) :
  (mergeDefined a b -> exists stats, MergeCrawlStats a b = Ok stats) /\
  (forall stats, MergeCrawlStats a b = Ok stats ->
     is_Some (StatusCodes stats) /\
     (forall k, code_count (StatusCodes stats) k =
                add64 (code_count (StatusCodes a) k) (code_count (StatusCodes b) k)) /\
     (forall k, in_int64 (code_count (StatusCodes a) k + code_count (StatusCodes b) k) ->
                code_count (StatusCodes stats) k =
                code_count (StatusCodes a) k + code_count (StatusCodes b) k) /\
     (forall k, entry (StatusCodes stats) k = None <->
                entry (StatusCodes a) k = None /\ entry (StatusCodes b) k = None)).
Proof.
  split; [apply MergeCrawlStats_defined|].
  intros stats H. apply MergeCrawlStats_Ok in H as (d & _ & ->). simpl.
  split; [eauto|]. split; [intros k; apply mergeCodes_index|]. split.
  - intros k Hr. rewrite mergeCodes_index. apply wrap64_id, Hr.
  - intros k. rewrite mergeCodes_lookup.
    destruct (entry (StatusCodes a) k), (entry (StatusCodes b) k); simpl;
      split; try tauto; try discriminate; intros [? ?]; discriminate.
Qed.

(** X2.  The merge panics exactly when an operand has a non-zero
    [Average200Time] while the merged 200-count is zero, and the panic is the
    division by zero of line 74; on every other pair it returns.  Two stats
    with zero averages, as crawlUrls returns them, never make it panic. *)
Theorem merge_panics_exactly (a b : CrawlStats) :
  ((exists p, MergeCrawlStats a b = Panic p) <->
   (Average200Time a <> 0 \/ Average200Time b <> 0) /\
   add64 (code_count (StatusCodes a) 200) (code_count (StatusCodes b) 200) = 0) /\
  (forall p, MergeCrawlStats a b = Panic p -> p = DivideByZero) /\
  ((exists stats, MergeCrawlStats a b = Ok stats) <->
   (Average200Time a = 0 /\ Average200Time b = 0) \/
   add64 (code_count (StatusCodes a) 200) (code_count (StatusCodes b) 200) <> 0).
Proof.
  assert (Hpanic : forall p, MergeCrawlStats a b = Panic p ->
            p = DivideByZero /\
            (Average200Time a <> 0 \/ Average200Time b <> 0) /\
            add64 (code_count (StatusCodes a) 200) (code_count (StatusCodes b) 200) = 0).
  { intros p H. apply MergeCrawlStats_Panic in H as [-> Hnd]. split; [reflexivity|].
    unfold mergeDefined in Hnd.
    destruct (Z.eq_dec (add64 (code_count (StatusCodes a) 200)
                              (code_count (StatusCodes b) 200)) 0) as [Hz|Hnz];
      [|tauto].
    split; [|exact Hz].
    destruct (Z.eq_dec (Average200Time a) 0), (Z.eq_dec (Average200Time b) 0); tauto. }
  split; [|split].
  - split.
    + intros [p H]. apply (Hpanic p H).
    + intros [Havg Hz]. destruct (MergeCrawlStats a b) as [stats|p] eqn:Hm; [|eauto].
      exfalso. apply MergeCrawlStats_Ok in Hm as (d & Hd & _).
      unfold mergeAverage in Hd.
      assert (Hg : negb (Average200Time a =? 0) || negb (Average200Time b =? 0) = true).
      { destruct (Z.eqb_spec (Average200Time a) 0), (Z.eqb_spec (Average200Time b) 0);
          simpl; tauto. }
      rewrite Hg in Hd. unfold quo64 in Hd. rewrite mergeCodes_index, Hz in Hd.
      simpl in Hd. discriminate.
  - intros p H. apply (Hpanic p H).
  - split.
    + intros [stats H].
      destruct (Z.eq_dec (add64 (code_count (StatusCodes a) 200)
                                (code_count (StatusCodes b) 200)) 0) as [Hz|Hnz];
        [|right; exact Hnz].
      left. apply MergeCrawlStats_Ok in H as (d & Hd & _). unfold mergeAverage in Hd.
      destruct (Z.eqb_spec (Average200Time a) 0) as [Ha|Ha],
               (Z.eqb_spec (Average200Time b) 0) as [Hb|Hb]; simpl in Hd;
        try (split; assumption);
        unfold quo64 in Hd; rewrite mergeCodes_index, Hz in Hd; simpl in Hd;
        discriminate.
    + apply MergeCrawlStats_defined.
Qed.

Lemma mergeAverage_with_zero a b codes :
  Average200Time b = 0 -> code_count (StatusCodes b) 200 = 0 ->
  in_int64 (Average200Time a) ->
  in_int64 (Average200Time a * code_count (StatusCodes a) 200) ->
  (Average200Time a <> 0 -> code_count (StatusCodes a) 200 <> 0) ->
  index codes 200 = code_count (StatusCodes a) 200 ->
  mergeAverage a b codes = Ok (Average200Time a) /\
  mergeAverage b a codes = Ok (Average200Time a).
Proof.
  intros Hb Hnb Hq Hqn Hne Hi. unfold mergeAverage.
  rewrite Hb, Hnb, Hi. unfold Nanoseconds, Nanosecond.
  set (q := Average200Time a) in *. set (n := code_count (StatusCodes a) 200) in *.
  destruct (Z.eqb_spec q 0) as [Hz|Hnz]; simpl.
  { rewrite Hz. split; reflexivity. }
  specialize (Hne Hnz).
  assert (H1 : add64 (mul64 q n) (mul64 0 0) = q * n).
  { unfold add64, mul64. rewrite Z.mul_0_l, wrap64_add_l, Z.add_0_r.
    apply wrap64_id, Hqn. }
  assert (H2 : add64 (mul64 0 0) (mul64 q n) = q * n).
  { rewrite add64_comm. exact H1. }
  rewrite H1, H2. unfold quo64.
  destruct (Z.eqb_spec n 0) as [|_]; [contradiction|]. simpl.
  unfold quot64. rewrite Z.quot_mul by exact Hne.
  unfold mul64. rewrite Z.mul_1_r, wrap64_idemp, wrap64_id by exact Hq.
  split; reflexivity.
Qed.

(** X3.  The zero value of CrawlStats is neutral for the merge.  For stats
    whose numbers are 64-bit numbers, whose [Max200Time] is not negative and
    whose average is consistent with its 200-count (no average without a
    count, and their product fits 64 bits), merging with the zero value, on
    either side, returns stats with the same [Total], the same entries in
    [StatusCodes], the same [Average200Time], [Max200Time] and
    [Non200Urls]. *)
Theorem merge_zero_neutral (a : CrawlStats) :
  in_int64 (Total a) ->
  (forall k v, entry (StatusCodes a) k = Some v -> in_int64 v) ->
  in_int64 (Average200Time a) ->
  in_int64 (Average200Time a * code_count (StatusCodes a) 200) ->
  (Average200Time a <> 0 -> code_count (StatusCodes a) 200 <> 0) ->
  0 <= Max200Time a ->
  exists right left,
    MergeCrawlStats a zeroCrawlStats = Ok right /\
    MergeCrawlStats zeroCrawlStats a = Ok left /\
    left = right /\
    Total right = Total a /\
    (forall k, entry (StatusCodes right) k = entry (StatusCodes a) k) /\
    Average200Time right = Average200Time a /\
    Max200Time right = Max200Time a /\
    Non200Urls right = Non200Urls a.
Proof.
  intros Ht Hc Hq Hqn Hne Hmx.
  assert (Hlk : forall k, mergeCodes a zeroCrawlStats !! k = entry (StatusCodes a) k).
  { intros k. rewrite mergeCodes_lookup. simpl.
    destruct (entry (StatusCodes a) k) as [v|] eqn:Hv; [|reflexivity].
    simpl. rewrite add64_0_r, wrap64_id by (apply (Hc k), Hv). reflexivity. }
  assert (Hi : index (mergeCodes a zeroCrawlStats) 200 = code_count (StatusCodes a) 200).
  { unfold index. rewrite Hlk, code_count_entry. reflexivity. }
  destruct (mergeAverage_with_zero a zeroCrawlStats (mergeCodes a zeroCrawlStats)
              eq_refl eq_refl Hq Hqn Hne Hi) as [Hr Hl].
  rewrite (mergeCodes_comm a zeroCrawlStats) in Hl.
  eexists _, _. split; [|split].
  - apply MergeCrawlStats_Ok. eexists. split; [exact Hr | reflexivity].
  - apply MergeCrawlStats_Ok. eexists. split; [exact Hl | reflexivity].
  - simpl. rewrite add64_0_r, add64_0_l, (wrap64_id _ Ht), app_nil_r.
    rewrite (mergeCodes_comm zeroCrawlStats a).
    replace (Z.max 0 (Max200Time a)) with (Max200Time a) by lia.
    replace (Z.max (Max200Time a) 0) with (Max200Time a) by lia.
    repeat split. exact Hlk.
Qed.

(** X4.  Apart from the average, which is truncated at every merge, the
    merge is associative: merging a with b and then c gives the same [Total],
    the same [StatusCodes] map, the same [Max200Time] and the same
    [Non200Urls] as merging a with the merge of b and c. *)
Theorem merge_associative_but_average (a b c ab bc left right : CrawlStats) :
  MergeCrawlStats a b = Ok ab ->
  MergeCrawlStats ab c = Ok left ->
  MergeCrawlStats b c = Ok bc ->
  MergeCrawlStats a bc = Ok right ->
  Total left = Total right /\
  StatusCodes left = StatusCodes right /\
  Max200Time left = Max200Time right /\
  Non200Urls left = Non200Urls right.
Proof.
  intros Hab Hl Hbc Hr.
  apply MergeCrawlStats_Ok in Hab as (d1 & _ & ->).
  apply MergeCrawlStats_Ok in Hl as (d2 & _ & ->).
  apply MergeCrawlStats_Ok in Hbc as (d3 & _ & ->).
  apply MergeCrawlStats_Ok in Hr as (d4 & _ & ->).
  simpl. split; [wrap_norm|]. split; [|split; [lia | apply eq_sym, app_assoc]].
  f_equal. apply map_eq. intros k. rewrite !mergeCodes_lookup. simpl.
  rewrite !mergeCodes_lookup.
  destruct (entry (StatusCodes a) k), (entry (StatusCodes b) k),
           (entry (StatusCodes c) k); simpl; try reflexivity; f_equal; wrap_norm.
Qed.

(** X5.  For two stats that are consistent (averages and 200-counts not
    negative, no average without a count) and whose weighted sum fits a
    Duration, the merge returns and the merged average is the weighted
    average of the two, truncated; it lies between the smaller and the larger
    of the two averages, and it is the average of an operand when the other
    one has no status-200 outcome. *)
Theorem merge_weighted_average_bounds (a b : CrawlStats) :
  0 <= Average200Time a -> 0 <= Average200Time b ->
  0 <= code_count (StatusCodes a) 200 -> 0 <= code_count (StatusCodes b) 200 ->
  (code_count (StatusCodes a) 200 = 0 -> Average200Time a = 0) ->
  (code_count (StatusCodes b) 200 = 0 -> Average200Time b = 0) ->
  Average200Time a * code_count (StatusCodes a) 200 +
    Average200Time b * code_count (StatusCodes b) 200 <= max_int64 ->
  code_count (StatusCodes a) 200 + code_count (StatusCodes b) 200 <= max_int64 ->
  exists stats,
    MergeCrawlStats a b = Ok stats /\
    Average200Time stats =
      (Average200Time a * code_count (StatusCodes a) 200 +
       Average200Time b * code_count (StatusCodes b) 200) /
      (code_count (StatusCodes a) 200 + code_count (StatusCodes b) 200) /\
    Z.min (Average200Time a) (Average200Time b) <= Average200Time stats
      <= Z.max (Average200Time a) (Average200Time b) /\
    (code_count (StatusCodes b) 200 = 0 -> Average200Time stats = Average200Time a) /\
    (code_count (StatusCodes a) 200 = 0 -> Average200Time stats = Average200Time b).
Proof.
  intros Hqa Hqb Hna Hnb Hza Hzb Hw Hn.
  pose proof (mergeAverage_weighted a b Hqa Hqb Hna Hnb Hza Hzb Hw Hn) as Havg.
  eexists. split; [apply MergeCrawlStats_Ok; eexists; split; [exact Havg|reflexivity]|].
  simpl. split; [reflexivity|].
  set (qa := Average200Time a) in *. set (qb := Average200Time b) in *.
  set (na := code_count (StatusCodes a) 200) in *.
  set (nb := code_count (StatusCodes b) 200) in *.
  split; [|split].
  - destruct (Z.eq_dec (na + nb) 0) as [Hz|Hnz].
    + rewrite Hz, Z.div_0_r. rewrite Hza, Hzb by lia. lia.
    + split.
      * apply Z.div_le_lower_bound; [lia|].
        destruct (Z.min_spec qa qb) as [[? ->]|[? ->]]; nia.
      * apply Z.div_le_upper_bound; [lia|].
        destruct (Z.max_spec qa qb) as [[? ->]|[? ->]]; nia.
  - intros Hb0.
    replace (qa * na + qb * nb) with (qa * na) by (rewrite Hb0; lia).
    replace (na + nb) with na by lia.
    destruct (Z.eq_dec na 0) as [Hz|Hnz].
    + rewrite Hz, Z.div_0_r. symmetry. apply Hza, Hz.
    + apply Z.div_mul, Hnz.
  - intros Ha0.
    replace (qa * na + qb * nb) with (qb * nb) by (rewrite Ha0; lia).
    replace (na + nb) with nb by lia.
    destruct (Z.eq_dec nb 0) as [Hz|Hnz].
    + rewrite Hz, Z.div_0_r. symmetry. apply Hzb, Hz.
    + apply Z.div_mul, Hnz.
Qed.

(** ** AsyncCrawl in terms of the two streams *)

Lemma foldl_max_shift ts : forall a b,
  foldl Z.max (Z.max a b) ts = Z.max a (foldl Z.max b ts).
Proof.
  induction ts as [|t ts IH]; intros a b; simpl; [reflexivity|].
  rewrite <- IH. f_equal. lia.
Qed.

Lemma foldl_max_app ts ts' :
  foldl Z.max 0 (ts ++ ts') = Z.max (foldl Z.max 0 ts) (foldl Z.max 0 ts').
Proof.
  rewrite foldl_app, <- foldl_max_shift. f_equal.
  pose proof (foldl_max_bounds ts 0) as [H _]. lia.
Qed.

Lemma times200_app pass pass' : times200 (pass ++ pass') = times200 pass ++ times200 pass'.
Proof. unfold times200. rewrite List.filter_app, map_app. reflexivity. Qed.

Lemma countStatus_app k pass pass' :
  countStatus k (pass ++ pass') = (countStatus k pass + countStatus k pass')%nat.
Proof. unfold countStatus. rewrite List.filter_app, length_app. reflexivity. Qed.

Lemma countStatus_all k pass :
  countStatus k pass = length pass <-> Forall (fun result => StatusCode result = k) pass.
Proof.
  induction pass as [|result pass IH]; [split; [constructor | reflexivity]|].
  rewrite countStatus_cons. pose proof (countStatus_le k pass).
  destruct (Z.eqb_spec (StatusCode result) k) as [He|Hne]; simpl; split.
  - intros H'. constructor; [exact He | apply IH; lia].
  - intros H'. apply Forall_cons in H' as [_ H']. apply IH in H'. lia.
  - intros H'. lia.
  - intros H'. apply Forall_cons in H' as [H' _]. contradiction.
Qed.

(** The stats AsyncCrawl returns, from the stats of the two passes. *)
Lemma AsyncCrawl_fields urls config signal1 signal2 :
  exists stats err statsA sumA statsB sumB,
    AsyncCrawl urls config signal1 signal2 = Ok (stats, false, err) /\
    receiveAll (firstPass urls config signal1) [] freshCrawlStats 0 =
      Ok (firstPass urls config signal1, statsA, sumA) /\
    receiveAll (secondPass urls config signal1 signal2) [] freshCrawlStats 0 =
      Ok (secondPass urls config signal1 signal2, statsB, sumB) /\
    Total stats = add64 (Total statsA) (Total statsB) /\
    (forall k, code_count (StatusCodes stats) k =
               add64 (code_count (StatusCodes statsA) k) (code_count (StatusCodes statsB) k)) /\
    Max200Time stats = Z.max (Max200Time statsA) (Max200Time statsB) /\
    Non200Urls stats =
      Non200Urls statsA ++
      map (setLinkingURLs (linkedUrlsSetOf (Links_ (prepareConfig config))
                             (firstPass urls config signal1) urls))
          (Non200Urls statsB) /\
    err = crawlError stats /\
    Average200Time stats =
      if code_count (StatusCodes stats) 200 >? 0
      then quot64 (add64 sumA sumB) (code_count (StatusCodes stats) 200)
      else 0.
Proof.
  unfold AsyncCrawl, crawlPhases, secondPass.
  unfold crawlUrls at 1. fold (firstPass urls config signal1).
  destruct (receiveAll_closed (firstPass urls config signal1))
    as (statsA & sumA & HrA & HtA & HcA & _ & _ & HsA & HmA & HaA).
  rewrite HrA. simpl.
  destruct (CrawlExternalLinks (Links_ config) || CrawlHyperlinks (Links_ config)
            || CrawlImages (Links_ config)) eqn:Hparse.
  - unfold crawlLinks, crawlUrls. simpl.
    match goal with |- context [receiveAll ?chan [] freshCrawlStats 0] =>
      destruct (receiveAll_closed chan)
        as (statsB & sumB & HrB & _ & _ & _ & _ & _ & _ & HaB);
      rewrite HrB end.
    simpl. unfold MergeCrawlStats at 1. unfold mergeAverage. simpl.
    rewrite HaA, HaB. simpl.
    eexists _, _, statsA, sumA, statsB, sumB. split; [reflexivity|].
    split; [reflexivity|]. split; [reflexivity|].
    match goal with |- context [finalizeAverage ?st ?su] =>
      destruct (finalizeAverage_fields st su) as (-> & -> & -> & -> & ->) end.
    simpl. rewrite gtb_max. split; [reflexivity|].
    split; [intros k; rewrite mergeCodes_index; reflexivity|]. split; [reflexivity|].
    split; [reflexivity|]. split; [reflexivity|]. reflexivity.
  - simpl. eexists _, _, statsA, sumA, freshCrawlStats, 0.
    split; [reflexivity|]. split; [reflexivity|]. split; [reflexivity|].
    destruct (finalizeAverage_fields statsA sumA) as (-> & -> & -> & -> & ->).
    simpl. rewrite app_nil_r. split; [rewrite HtA, add64_0_r, wrap64_idemp; reflexivity|].
    split.
    { intros k. unfold index. rewrite lookup_empty. simpl.
      rewrite HcA, add64_0_r, wrap64_idemp. reflexivity. }
    split.
    { rewrite HmA. pose proof (foldl_max_bounds (times200 (firstPass urls config signal1)) 0)
        as [H _]. lia. }
    split; [reflexivity|]. split; [reflexivity|].
    rewrite HaA, HsA, add64_0_r, wrap64_idemp. reflexivity.
Qed.

(** The numbers of AsyncCrawl when the outcomes of the two passes can be
    counted in an [int]. *)
Lemma AsyncCrawl_counts urls config signal1 signal2 :
  Z.of_nat (length (firstPass urls config signal1) +
            length (secondPass urls config signal1 signal2)) <= max_int64 ->
  exists stats err,
    AsyncCrawl urls config signal1 signal2 = Ok (stats, false, err) /\
    err = crawlError stats /\
    Total stats =
      Z.of_nat (length (firstPass urls config signal1 ++
                        secondPass urls config signal1 signal2)) /\
    forall k, code_count (StatusCodes stats) k =
      Z.of_nat (countStatus k (firstPass urls config signal1 ++
                               secondPass urls config signal1 signal2)).
Proof.
  intros Hlen.
  destruct (AsyncCrawl_fields urls config signal1 signal2)
    as (stats & err & statsA & sumA & statsB & sumB & Ha & HrA & HrB & Ht & Hc & _ & _ & He & _).
  destruct (receiveAll_closed (firstPass urls config signal1))
    as (sA & tA & HrA' & HtA & HcA & _).
  destruct (receiveAll_closed (secondPass urls config signal1 signal2))
    as (sB & tB & HrB' & HtB & HcB & _).
  rewrite HrA in HrA'. injection HrA' as <- <-.
  rewrite HrB in HrB'. injection HrB' as <- <-.
  exists stats, err. split; [exact Ha|]. split; [exact He|]. split.
  - rewrite Ht, HtA, HtB, length_app. unfold add64.
    rewrite wrap64_add_l, wrap64_add_r.
    rewrite wrap64_id; [lia | apply (in_int64_between _ max_int64); lia].
  - intros k. rewrite Hc, HcA, HcB, countStatus_app. unfold add64.
    rewrite wrap64_add_l, wrap64_add_r.
    pose proof (countStatus_le k (firstPass urls config signal1)).
    pose proof (countStatus_le k (secondPass urls config signal1 signal2)).
    rewrite wrap64_id; [lia | apply (in_int64_between _ max_int64); lia].
Qed.

(** X9.  With the outcomes of the two passes countable in an [int],
    AsyncCrawl returns no error exactly when it received at least one outcome
    and every outcome, of the first pass and of the second, has status 200; it
    returns the "No URL crawled" error exactly when the fetcher streamed no
    outcome at all, and the other error exactly when some outcome has another
    status.  [Total] is the number of outcomes of both passes. *)
Theorem AsyncCrawl_succeeds_iff_all_200 (urls : list string) (config : CrawlConfig)
    (signal1 signal2 : bool) :
  Z.of_nat (length (firstPass urls config signal1) +
            length (secondPass urls config signal1 signal2)) <= max_int64 ->
  exists stats stopped err,
    AsyncCrawl urls config signal1 signal2 = Ok (stats, stopped, err) /\
    Total stats =
      Z.of_nat (length (firstPass urls config signal1 ++
                        secondPass urls config signal1 signal2)) /\
    (err = None <->
     firstPass urls config signal1 ++ secondPass urls config signal1 signal2 <> [] /\
     Forall (fun result => StatusCode result = 200)
            (firstPass urls config signal1 ++ secondPass urls config signal1 signal2)) /\
    (err = Some "No URL crawled"%string <->
     firstPass urls config signal1 ++ secondPass urls config signal1 signal2 = []) /\
    (err = Some "Some URLs had a different status code than 200"%string <->
     ~ Forall (fun result => StatusCode result = 200)
              (firstPass urls config signal1 ++ secondPass urls config signal1 signal2)).
Proof.
  intros Hlen.
  destruct (AsyncCrawl_counts urls config signal1 signal2 Hlen)
    as (stats & err & Ha & He & Ht & Hc).
  exists stats, false, err. split; [exact Ha|]. split; [exact Ht|].
  rewrite He. unfold crawlError. rewrite Ht, (Hc 200).
  set (all := firstPass urls config signal1 ++ secondPass urls config signal1 signal2).
  pose proof (countStatus_le 200 all) as Hle.
  pose proof (countStatus_all 200 all) as Hall.
  assert (Hnil : Z.of_nat (length all) = 0 <-> all = []).
  { destruct all; simpl; split; try reflexivity; try discriminate; lia. }
  destruct (Z.eqb_spec (Z.of_nat (length all)) 0) as [H0|H0].
  - apply Hnil in H0 as H0'. split; [|split].
    + split; [discriminate | intros [Hne _]; contradiction].
    + tauto.
    + split; [discriminate|]. intros Hn. exfalso. apply Hn. rewrite H0'. constructor.
  - destruct (Z.eqb_spec (Z.of_nat (length all)) (Z.of_nat (countStatus 200 all)))
      as [H2|H2]; simpl.
    + assert (Hf : Forall (fun result => StatusCode result = 200) all)
        by (apply Hall; lia).
      split; [|split].
      * split; [intros _; split; [rewrite <- Hnil; exact H0 | exact Hf] | reflexivity].
      * split; [discriminate | intros Hn; apply Hnil in Hn; contradiction].
      * split; [discriminate | intros Hn; contradiction].
    + assert (Hf : ~ Forall (fun result => StatusCode result = 200) all).
      { intros Hf. apply Hall in Hf. lia. }
      split; [|split].
      * split; [discriminate | intros [_ Hf']; contradiction].
      * split; [discriminate | intros Hn; apply Hnil in Hn; contradiction].
      * split; [intros _; exact Hf | reflexivity].
Qed.

Lemma non200Results_status pass :
  Forall (fun r => CrawlResult.StatusCode r <> 200 /\ CrawlResult.LinkingURLs r = [])
         (non200Results pass).
Proof.
  induction pass as [|result pass IH]; [constructor|].
  rewrite non200Results_cons.
  destruct (Z.eqb_spec (StatusCode result) 200) as [He|Hne]; [exact IH|].
  constructor; [split; [exact Hne | reflexivity] | exact IH].
Qed.

Lemma non200Results_nil pass :
  non200Results pass = [] <-> Forall (fun result => StatusCode result = 200) pass.
Proof.
  induction pass as [|result pass IH]; [split; [constructor | reflexivity]|].
  rewrite non200Results_cons.
  destruct (Z.eqb_spec (StatusCode result) 200) as [He|Hne]; split.
  - intros H. constructor; [exact He | apply IH, H].
  - intros H. apply Forall_cons in H as [_ H]. apply IH, H.
  - discriminate.
  - intros H. apply Forall_cons in H as [H _]. contradiction.
Qed.

(** X10.  [Non200Urls] of the stats AsyncCrawl returns reports every outcome
    whose status is not 200 and no other: first the records of the first pass,
    in the order of arrival and without linking URLs, then the records of the
    second pass, each with the linking URLs kept for its URL.  No record has
    status 200; the list is empty exactly when every outcome has status 200;
    and when the outcomes can be counted in an [int] its length is [Total]
    minus the 200-count. *)
Theorem AsyncCrawl_reports_non200 (urls : list string) (config : CrawlConfig)
    (signal1 signal2 : bool) :
  exists stats stopped err,
    AsyncCrawl urls config signal1 signal2 = Ok (stats, stopped, err) /\
    Non200Urls stats =
      non200Results (firstPass urls config signal1) ++
      map (setLinkingURLs (linkedUrlsSetOf (Links_ (prepareConfig config))
                             (firstPass urls config signal1) urls))
          (non200Results (secondPass urls config signal1 signal2)) /\
    Forall (fun r => CrawlResult.StatusCode r <> 200) (Non200Urls stats) /\
    (Non200Urls stats = [] <->
     Forall (fun result => StatusCode result = 200)
            (firstPass urls config signal1 ++ secondPass urls config signal1 signal2)) /\
    (Z.of_nat (length (firstPass urls config signal1) +
               length (secondPass urls config signal1 signal2)) <= max_int64 ->
     Z.of_nat (length (Non200Urls stats)) =
       Total stats - code_count (StatusCodes stats) 200).
Proof.
  destruct (AsyncCrawl_fields urls config signal1 signal2)
    as (stats & err & statsA & sumA & statsB & sumB & Ha & HrA & HrB & _ & _ & _ & Hu & _).
  destruct (receiveAll_closed (firstPass urls config signal1))
    as (sA & tA & HrA' & _ & _ & _ & HuA & _).
  destruct (receiveAll_closed (secondPass urls config signal1 signal2))
    as (sB & tB & HrB' & _ & _ & _ & HuB & _).
  rewrite HrA in HrA'. injection HrA' as <- <-.
  rewrite HrB in HrB'. injection HrB' as <- <-.
  rewrite HuA, HuB in Hu.
  exists stats, false, err. split; [exact Ha|]. split; [exact Hu|].
  rewrite Hu. split; [|split].
  - apply Forall_app. split.
    + eapply Forall_impl; [apply non200Results_status|]. intros r [H _]. exact H.
    + apply Forall_map. eapply Forall_impl; [apply non200Results_status|].
      intros r [H _]. exact H.
  - rewrite Forall_app, <- !non200Results_nil. split.
    + intros H. apply app_eq_nil in H as [H1 H2]. split; [exact H1|].
      apply map_eq_nil in H2. exact H2.
    + intros [-> ->]. reflexivity.
  - intros Hlen.
    destruct (AsyncCrawl_counts urls config signal1 signal2 Hlen)
      as (stats' & err' & Ha' & _ & Ht & Hc).
    rewrite Ha in Ha'. injection Ha' as <- <-.
    rewrite Ht, (Hc 200), length_app, length_map, length_app, countStatus_app.
    pose proof (non200Results_length (firstPass urls config signal1)).
    pose proof (non200Results_length (secondPass urls config signal1 signal2)).
    lia.
Qed.

Lemma linkingURLs_kept links sourceResults sourceURLs target :
  default [] (linkedUrlsSetOf links sourceResults sourceURLs !! target) =
  if bool_decide (target ∈ sourceURLs) then []
  else referrers links sourceResults target.
Proof.
  rewrite linkedUrlsSetOf_lookup. destruct (bool_decide (target ∈ sourceURLs)); [reflexivity|].
  destruct (referrers links sourceResults target); reflexivity.
Qed.

(** X8.  crawlLinks returns the stats of its pass with the failing URLs
    annotated: [Total], [StatusCodes], [Max200Time], the average and the
    success-time sum are those of the pass over the linked URLs, and
    [Non200Urls] holds, for each outcome of that pass whose status is not 200
    and in the order of arrival, its URL, status and time together with the
    linking URLs of its URL: the source URLs of the first-pass results that
    link to it through a followed link, and none for a URL of the first
    pass. *)
Theorem crawlLinks_annotates (sourceResults : list HTTPResponse)
    (sourceURLs : list string) (sourceConfig : CrawlConfig) (signal : bool) :
  exists linksResults linksStats passStats sum,
    crawlLinks sourceResults sourceURLs sourceConfig signal =
      Ok (linksResults, linksStats, sum) /\
    crawlUrls (linkedUrlsOf (linkedUrlsSetOf (Links_ sourceConfig) sourceResults sourceURLs))
              (linksConfigOf sourceConfig) signal =
      Ok (linksResults, passStats, sum) /\
    Total linksStats = Total passStats /\
    StatusCodes linksStats = StatusCodes passStats /\
    Max200Time linksStats = Max200Time passStats /\
    Average200Time linksStats = Average200Time passStats /\
    Non200Urls linksStats =
      map (fun result =>
             {| CrawlResult.URL := URL result;
                CrawlResult.StatusCode := StatusCode result;
                CrawlResult.Time := serverTimeOf result;
                CrawlResult.LinkingURLs :=
                  if bool_decide (URL result ∈ sourceURLs) then []
                  else referrers (Links_ sourceConfig) sourceResults (URL result) |})
          (List.filter (fun result => negb (StatusCode result =? 200)) linksResults).
Proof.
  unfold crawlLinks.
  set (set := linkedUrlsSetOf (Links_ sourceConfig) sourceResults sourceURLs).
  unfold crawlUrls.
  set (chan := HTTPGetter (linksConfigOf sourceConfig) (linkedUrlsOf set)
                 (HTTP (linksConfigOf sourceConfig)) (Throttle (linksConfigOf sourceConfig))
                 (addInterruptHandlers signal)).
  destruct (receiveAll_closed chan) as (stats & sum & Hr & _ & _ & _ & Hu & _).
  rewrite Hr. simpl.
  eexists chan, _, stats, sum. split; [reflexivity|]. split; [reflexivity|].
  simpl. repeat (split; [reflexivity|]).
  rewrite Hu. unfold non200Results. rewrite map_map. apply map_ext.
  intros result. unfold setLinkingURLs, toCrawlResult. simpl. f_equal.
  apply linkingURLs_kept.
Qed.

(** X11.  When the success times of the two passes are not negative and
    their sum and number fit 64 bits, the [Average200Time] AsyncCrawl returns
    is the sum of the success times of both passes divided by their number
    (zero when there is none), and [Max200Time] is their maximum: not below
    any of them, one of them when there is one, zero when there is none. *)
Theorem AsyncCrawl_average_and_max (urls : list string) (config : CrawlConfig)
    (signal1 signal2 : bool) :
  Forall (fun t => 0 <= t)
         (times200 (firstPass urls config signal1 ++
                    secondPass urls config signal1 signal2)) ->
  sumList (times200 (firstPass urls config signal1 ++
                     secondPass urls config signal1 signal2)) <= max_int64 ->
  Z.of_nat (length (times200 (firstPass urls config signal1 ++
                              secondPass urls config signal1 signal2))) <= max_int64 ->
  exists stats stopped err,
    AsyncCrawl urls config signal1 signal2 = Ok (stats, stopped, err) /\
    Average200Time stats =
      sumList (times200 (firstPass urls config signal1 ++
                         secondPass urls config signal1 signal2)) /
      Z.of_nat (length (times200 (firstPass urls config signal1 ++
                                  secondPass urls config signal1 signal2))) /\
    Forall (fun t => t <= Max200Time stats)
           (times200 (firstPass urls config signal1 ++
                      secondPass urls config signal1 signal2)) /\
    (times200 (firstPass urls config signal1 ++
               secondPass urls config signal1 signal2) <> [] ->
     In (Max200Time stats)
        (times200 (firstPass urls config signal1 ++
                   secondPass urls config signal1 signal2))) /\
    (times200 (firstPass urls config signal1 ++
               secondPass urls config signal1 signal2) = [] ->
     Max200Time stats = 0 /\ Average200Time stats = 0).
Proof.
  rewrite times200_app. intros Hnn Hsum Hlen.
  apply Forall_app in Hnn as [HnnA HnnB].
  assert (HsumApp : forall l l', sumList (l ++ l') = sumList l + sumList l').
  { intros l l'. induction l as [|x l IH]; simpl; [reflexivity | rewrite IH; lia]. }
  rewrite HsumApp in Hsum |- *. rewrite length_app, Nat2Z.inj_add in Hlen |- *.
  pose proof (sumList_nonneg _ HnnA) as H0A. pose proof (sumList_nonneg _ HnnB) as H0B.
  destruct (AsyncCrawl_fields urls config signal1 signal2)
    as (stats & err & statsA & sumA & statsB & sumB & Ha & HrA & HrB & _ & Hc & Hmx & _ & _ & Havg).
  destruct (pass_numbers (firstPass urls config signal1) HnnA ltac:(lia) ltac:(lia))
    as (sA & tA & HrA' & HcA & HsA & _).
  destruct (pass_numbers (secondPass urls config signal1 signal2) HnnB ltac:(lia) ltac:(lia))
    as (sB & tB & HrB' & HcB & HsB & _).
  rewrite HrA in HrA'. injection HrA' as <- <-.
  rewrite HrB in HrB'. injection HrB' as <- <-.
  destruct (receiveAll_fresh (firstPass urls config signal1))
    as (sA & tA & HrA' & _ & _ & _ & _ & HmA & _).
  destruct (receiveAll_fresh (secondPass urls config signal1 signal2))
    as (sB & tB & HrB' & _ & _ & _ & _ & HmB & _).
  rewrite HrA in HrA'. injection HrA' as <- <-.
  rewrite HrB in HrB'. injection HrB' as <- <-.
  set (tsA := times200 (firstPass urls config signal1)) in *.
  set (tsB := times200 (secondPass urls config signal1 signal2)) in *.
  assert (Hn : code_count (StatusCodes stats) 200 =
               Z.of_nat (length tsA) + Z.of_nat (length tsB)).
  { rewrite Hc, HcA, HcB. apply wrap64_id, (in_int64_between _ max_int64); lia. }
  assert (Hs : add64 sumA sumB = sumList tsA + sumList tsB).
  { rewrite HsA, HsB. apply wrap64_id, (in_int64_between _ max_int64); lia. }
  assert (Hmax : Max200Time stats = foldl Z.max 0 (tsA ++ tsB)).
  { rewrite Hmx, HmA, HmB, foldl_max_app. reflexivity. }
  assert (Havg' : Average200Time stats =
                  (sumList tsA + sumList tsB) /
                  (Z.of_nat (length tsA) + Z.of_nat (length tsB))).
  { rewrite Havg, Hn, Hs.
    destruct (Z.ltb_spec 0 (Z.of_nat (length tsA) + Z.of_nat (length tsB))) as [Hpos|Hz].
    - rewrite (proj2 (Z.gtb_lt _ _) Hpos). apply quot64_nonneg; lia.
    - replace (Z.of_nat (length tsA) + Z.of_nat (length tsB)) with 0 by lia.
      simpl. symmetry. apply Z.div_0_r. }
  exists stats, false, err. split; [exact Ha|]. split; [exact Havg'|].
  rewrite Hmax. split; [apply foldl_max_bounds|]. split.
  - intros Hne. apply foldl_max_is_max; [exact Hne|].
    apply Forall_app. split; assumption.
  - intros Hnil. apply app_eq_nil in Hnil as [HA HB].
    rewrite Havg', HA, HB. split; reflexivity.
Qed.

(** X12.  AsyncCrawl never asks the fetcher for a throttle below 1: two
    configurations that differ only in their fetchers give the same result as
    soon as the fetchers agree on every call with a throttle of at least 1;
    and a throttle of zero or less gives the result a throttle of 1 gives. *)
Theorem AsyncCrawl_throttle_at_least_one (urls : list string) (config config' : CrawlConfig)
    (signal1 signal2 : bool) :
  (Throttle config = Throttle config' ->
   Host config = Host config' ->
   HTTP config = HTTP config' ->
   Links_ config = Links_ config' ->
   (forall us http throttle quit,
      1 <= throttle ->
      HTTPGetter config us http throttle quit = HTTPGetter config' us http throttle quit) ->
   AsyncCrawl urls config signal1 signal2 = AsyncCrawl urls config' signal1 signal2) /\
  (Throttle config <= 0 ->
   AsyncCrawl urls config signal1 signal2 =
   AsyncCrawl urls {| Throttle := 1; Host := Host config; HTTP := HTTP config;
                      Links_ := Links_ config; HTTPGetter := HTTPGetter config |}
              signal1 signal2).
Proof.
  split.
  - intros Ht Hh Hhttp Hl Hg.
    assert (H1 : 1 <= (if Throttle config <=? 0 then 1 else Throttle config))
      by (destruct (Z.leb_spec (Throttle config) 0); lia).
    unfold AsyncCrawl, crawlPhases, crawlLinks, crawlUrls. simpl.
    rewrite <- Ht, <- Hhttp, <- Hl.
    rewrite <- (Hg _ _ _ _ H1).
    destruct (receiveAll _ [] freshCrawlStats 0) as [[[results stats] sum]|p];
      [|reflexivity].
    simpl.
    destruct (CrawlExternalLinks (Links_ config) || CrawlHyperlinks (Links_ config)
              || CrawlImages (Links_ config)); [|reflexivity].
    rewrite <- (Hg _ _ _ _ H1). reflexivity.
  - intros Hle. unfold AsyncCrawl. f_equal. unfold prepareConfig. simpl.
    destruct (Z.leb_spec (Throttle config) 0); [reflexivity | lia].
Qed.

(** ** Links are followed one hop only *)

Lemma updateCrawlStats_dropLinks result result' stats sum :
  dropLinks result = dropLinks result' ->
  updateCrawlStats result stats sum = updateCrawlStats result' stats sum.
Proof.
  unfold dropLinks. intros [= Hu Hr Hs He].
  unfold updateCrawlStats, serverTimeOf. rewrite Hu, Hr, Hs, He. reflexivity.
Qed.

Lemma receiveAll_dropLinks chan : forall chan' results results' stats sum,
  map dropLinks chan = map dropLinks chan' ->
  match receiveAll chan results stats sum, receiveAll chan' results' stats sum with
  | Ok (_, s, t), Ok (_, s', t') => s = s' /\ t = t'
  | Panic p, Panic p' => p = p'
  | _, _ => False
  end.
Proof.
  induction chan as [|result rest IH]; intros [|result' rest'] results results' stats sum;
    try discriminate.
  - intros _. simpl. split; reflexivity.
  - intros Hm.
    assert (Hd : dropLinks result = dropLinks result') by (simpl in Hm; congruence).
    assert (Hrest : map dropLinks rest = map dropLinks rest')
      by (simpl in Hm; congruence).
    simpl. rewrite (updateCrawlStats_dropLinks result result' stats sum Hd).
    destruct (updateCrawlStats result' stats sum) as [[stats1 sum1]|p]; simpl;
      [|reflexivity].
    apply IH, Hrest.
Qed.

(** X15.  The links of the second pass are never followed, and without link
    following the links of the first pass are not read either: two
    configurations that differ only in their fetchers give the same result as
    soon as the fetchers stream the same outcomes when asked to parse links
    and, when not asked to, outcomes that differ in their links only. *)
Theorem AsyncCrawl_no_third_hop (urls : list string) (config config' : CrawlConfig)
    (signal1 signal2 : bool) :
  Throttle config = Throttle config' ->
  Host config = Host config' ->
  HTTP config = HTTP config' ->
  Links_ config = Links_ config' ->
  (forall us http throttle quit,
     ParseLinks http = true ->
     HTTPGetter config us http throttle quit = HTTPGetter config' us http throttle quit) ->
  (forall us http throttle quit,
     ParseLinks http = false ->
     map dropLinks (HTTPGetter config us http throttle quit) =
     map dropLinks (HTTPGetter config' us http throttle quit)) ->
  AsyncCrawl urls config signal1 signal2 = AsyncCrawl urls config' signal1 signal2.
Proof.
  intros Ht Hh Hhttp Hl Hparse Hplain.
  unfold AsyncCrawl, crawlPhases, crawlLinks, crawlUrls. simpl.
  rewrite <- Ht, <- Hhttp, <- Hl.
  destruct (CrawlExternalLinks (Links_ config) || CrawlHyperlinks (Links_ config)
            || CrawlImages (Links_ config)) eqn:Hb.
  - match goal with
    | |- context [receiveAll (HTTPGetter config' urls ?h ?t ?q) [] freshCrawlStats 0] =>
        rewrite <- (Hparse urls h t q eq_refl)
    end.
    destruct (receiveAll _ [] freshCrawlStats 0) as [[[results stats] sum]|p];
      [|reflexivity].
    simpl.
    match goal with
    | |- context [receiveAll (HTTPGetter config ?us ?h ?t ?q) [] freshCrawlStats 0] =>
        pose proof (receiveAll_dropLinks _ _ [] [] freshCrawlStats 0
                      (Hplain us h t q eq_refl)) as Hsame
    end.
    destruct (receiveAll (HTTPGetter config _ _ _ _) [] freshCrawlStats 0)
      as [[[rB sB] tB]|pB],
      (receiveAll (HTTPGetter config' _ _ _ _) [] freshCrawlStats 0)
      as [[[rB' sB'] tB']|pB']; try contradiction.
    + destruct Hsame as [<- <-]. reflexivity.
    + rewrite Hsame. reflexivity.
  - match goal with
    | |- context [receiveAll (HTTPGetter config ?us ?h ?t ?q) [] freshCrawlStats 0] =>
        pose proof (receiveAll_dropLinks _ _ [] [] freshCrawlStats 0
                      (Hplain us h t q eq_refl)) as Hsame
    end.
    destruct (receiveAll (HTTPGetter config _ _ _ _) [] freshCrawlStats 0)
      as [[[rA sA] tA]|pA],
      (receiveAll (HTTPGetter config' _ _ _ _) [] freshCrawlStats 0)
      as [[[rA' sA'] tA']|pA']; try contradiction.
    + destruct Hsame as [<- <-]. reflexivity.
    + rewrite Hsame. reflexivity.
Qed.

End Properties.

(** * Properties of the sitemap functions *)

Section SitemapProperties.
Context {outside : External} {source : SitemapSource}.

Lemma foldl_appendParsed entries : forall urls,
  foldl appendParsed urls entries =
  urls ++ omap (fun Loc => match url_Parse Loc with
                           | inl u => Some u
                           | inr _ => None
                           end) entries.
Proof.
  induction entries as [|Loc entries IH]; intros urls; simpl.
  - rewrite app_nil_r. reflexivity.
  - rewrite IH. unfold appendParsed. destruct (url_Parse Loc); [|reflexivity].
    rewrite <- app_assoc. reflexivity.
Qed.

Lemma foldl_append_strings (typedUrls : list url_URL) : forall urls,
  foldl (fun urls url => urls ++ [URL_String url]) urls typedUrls =
  urls ++ map URL_String typedUrls.
Proof.
  induction typedUrls as [|u us IH]; intros urls; simpl.
  - rewrite app_nil_r. reflexivity.
  - rewrite IH, <- app_assoc. reflexivity.
Qed.

Lemma omap_parsedString entries :
  map URL_String (omap (fun Loc => match url_Parse Loc with
                                   | inl u => Some u
                                   | inr _ => None
                                   end) entries) =
  omap parsedString entries.
Proof.
  induction entries as [|Loc entries IH]; [reflexivity|].
  simpl. unfold parsedString at 1. destruct (url_Parse Loc); simpl; [f_equal|]; exact IH.
Qed.

Lemma omap_cons {A B} (f : A -> option B) (x : A) (l : list A) :
  omap f (x :: l) = match f x with
                    | Some y => y :: omap f l
                    | None => omap f l
                    end.
Proof. reflexivity. Qed.

(** X13.  The error of the sitemap functions is the error of the retrieval
    and nothing else: when [sitemap.Get] fails, GetSitemapUrls and
    GetSitemapUrlsAsStrings return that error and no URL; when it succeeds
    they return no error, whatever entries fail to parse.  The strings
    GetSitemapUrlsAsStrings returns are the string forms of the URLs
    GetSitemapUrls returns, in the same order. *)
Theorem sitemap_error_is_retrieval_error (sitemapURL : string) :
  snd (GetSitemapUrls sitemapURL) = snd (sitemap_Get sitemapURL) /\
  snd (GetSitemapUrlsAsStrings sitemapURL) = snd (sitemap_Get sitemapURL) /\
  fst (GetSitemapUrlsAsStrings sitemapURL) =
    map URL_String (fst (GetSitemapUrls sitemapURL)) /\
  (forall e, snd (sitemap_Get sitemapURL) = Some e ->
     GetSitemapUrls sitemapURL = ([], Some e) /\
     GetSitemapUrlsAsStrings sitemapURL = ([], Some e)).
Proof.
  unfold GetSitemapUrlsAsStrings, GetSitemapUrls.
  destruct (sitemap_Get sitemapURL) as [entries [e|]]; simpl.
  - split; [reflexivity|]. split; [reflexivity|]. split; [reflexivity|].
    intros e' [= <-]. split; reflexivity.
  - rewrite foldl_append_strings. simpl.
    split; [reflexivity|]. split; [reflexivity|]. split; [reflexivity|].
    intros e' [=].
Qed.

(** X14.  When the sitemap is retrieved, GetSitemapUrlsAsStrings returns the
    string form of every entry that parses, in the order of the sitemap, and
    skips the entries that do not parse without reporting them: it never
    returns more URLs than the sitemap has entries, and returns as many when
    every entry parses. *)
Theorem sitemap_urls_in_order (sitemapURL : string) (entries : list string) :
  sitemap_Get sitemapURL = (entries, None) ->
  GetSitemapUrlsAsStrings sitemapURL = (omap parsedString entries, None) /\
  (length (fst (GetSitemapUrlsAsStrings sitemapURL)) <= length entries)%nat /\
  (Forall (fun Loc => is_Some (parsedString Loc)) entries ->
   length (fst (GetSitemapUrlsAsStrings sitemapURL)) = length entries) /\
  (forall s, s ∈ fst (GetSitemapUrlsAsStrings sitemapURL) <->
             exists Loc, Loc ∈ entries /\ parsedString Loc = Some s).
Proof.
  intros Hget.
  assert (Heq : GetSitemapUrlsAsStrings sitemapURL = (omap parsedString entries, None)).
  { unfold GetSitemapUrlsAsStrings, GetSitemapUrls. rewrite Hget. simpl.
    rewrite foldl_append_strings, foldl_appendParsed. simpl.
    rewrite omap_parsedString. reflexivity. }
  rewrite Heq. simpl. split; [reflexivity|]. split; [|split].
  - clear. induction entries as [|Loc entries IH]; [reflexivity|].
    rewrite omap_cons. destruct (parsedString Loc); simpl; lia.
  - clear. induction 1 as [|Loc entries [s Hs] _ IH]; [reflexivity|].
    rewrite omap_cons, Hs. simpl. f_equal. exact IH.
  - intros s. apply list_elem_of_omap.
Qed.

End SitemapProperties.

(** * The properties on the concrete site *)

(** ** The merge on concrete stats *)

(** C1 on the stats [statsP] and [statsQ]: the merge returns, with total 3
    and maximum 50. *)
Lemma merge_total_and_max_witness :
  mergeDefined statsP statsQ /\
  in_int64 (Total statsP + Total statsQ) /\
  exists stats,
    MergeCrawlStats statsP statsQ = Ok stats /\
    Total stats = 3 /\ Max200Time stats = 50.
Proof.
  assert (Hd : mergeDefined statsP statsQ) by (right; vm_compute; discriminate).
  assert (Hr : in_int64 (Total statsP + Total statsQ))
    by (split; vm_compute; discriminate).
  split; [exact Hd|]. split; [exact Hr|].
  destruct (merge_total_and_max statsP statsQ) as [Hex Hok].
  destruct (Hex Hd) as [stats Hs]. exists stats. split; [exact Hs|].
  destruct (Hok stats Hs) as (_ & Ht & Hm). rewrite (Ht Hr), Hm.
  split; reflexivity.
Defined.

(** C7 on [statsP] and [statsQ], merged in both orders. *)
Lemma merge_commutative_but_urls_witness :
  mergeDefined statsP statsQ /\
  exists stats stats',
    MergeCrawlStats statsP statsQ = Ok stats /\
    MergeCrawlStats statsQ statsP = Ok stats' /\
    Non200Urls stats = Non200Urls statsP ++ Non200Urls statsQ /\
    Non200Urls stats' = Non200Urls statsQ ++ Non200Urls statsP /\
    Total stats = Total stats' /\
    StatusCodes stats = StatusCodes stats' /\
    Max200Time stats = Max200Time stats' /\
    Average200Time stats = Average200Time stats'.
Proof.
  assert (Hd : mergeDefined statsP statsQ) by (right; vm_compute; discriminate).
  split; [exact Hd|].
  destruct (merge_commutative_but_urls statsP statsQ) as (Hex & Hok & _).
  destruct (Hex Hd) as [stats Hs].
  destruct (Hok stats Hs) as (Hu & stats' & Hs' & Hu' & Hrest).
  exists stats, stats'. tauto.
Defined.

(** The merged average of the two stats above: (50*1 + 30*1) / 2. *)
Example merge_P_Q_average :
  exists stats, MergeCrawlStats statsP statsQ = Ok stats /\
    Average200Time stats = 40 /\
    code_count (StatusCodes stats) 200 = 2 /\
    code_count (StatusCodes stats) 404 = 1.
Proof. eexists. split; [vm_compute; reflexivity|]. repeat split. Qed.

Lemma allZero_zero : allZero zeroCrawlStats.
Proof. repeat split. Qed.

(** C4 on two zero values of the struct. *)
Lemma merge_zero_counts_zero_averages_witness :
  allZero zeroCrawlStats /\
  (exists stats, MergeCrawlStats zeroCrawlStats zeroCrawlStats = Ok stats /\
                 Average200Time stats = 0) /\
  (exists stats, MergeCrawlStats zeroCrawlStats zeroCrawlStats = Ok stats /\
                 allZero stats).
Proof.
  split; [exact allZero_zero|].
  destruct (merge_zero_counts_zero_averages zeroCrawlStats zeroCrawlStats) as [H1 H2].
  split.
  - apply H1; reflexivity.
  - apply H2; exact allZero_zero.
Defined.

(** C4, the claim as stated fails: both 200-counts are zero and the merge
    divides by zero. *)
Lemma merge_zero_counts_divides_by_zero :
  code_count (StatusCodes statsOdd) 200 = 0 /\
  code_count (StatusCodes zeroCrawlStats) 200 = 0 /\
  MergeCrawlStats statsOdd zeroCrawlStats = Panic DivideByZero.
Proof. repeat split. Qed.

(** ** The aggregator on concrete outcomes *)

Lemma countsNonneg_P : countsNonneg statsP.
Proof.
  intros k v H. unfold statsP, entry, StatusCodes in H.
  apply lookup_insert_Some in H as [[_ <-]|[_ H]]; [lia|].
  apply lookup_singleton_Some in H as [_ <-]. lia.
Qed.

Lemma countsNonneg_Q : countsNonneg statsQ.
Proof.
  intros k v H. unfold statsQ, entry, StatusCodes in H.
  apply lookup_singleton_Some in H as [_ <-]. lia.
Qed.

(** C2 on [statsP]: folding a 404 outcome into it, and merging it with
    [statsQ]. *)
Lemma total_is_sum_preserved_witness :
  totalIsSum statsP /\ totalIsExactSum statsP /\
  totalIsSum statsQ /\ totalIsExactSum statsQ /\
  (exists stats' sum',
     updateCrawlStats (siteGet false imageC) statsP 0 = Ok (stats', sum') /\
     totalIsSum stats' /\ totalIsExactSum stats' /\
     Total stats' = 3 /\ code_count (StatusCodes stats') 404 = 2) /\
  (exists merged,
     MergeCrawlStats statsP statsQ = Ok merged /\
     totalIsSum merged /\ totalIsExactSum merged /\ Total merged = 3).
Proof.
  assert (HP : totalIsSum statsP) by reflexivity.
  assert (HQ : totalIsSum statsQ) by reflexivity.
  assert (HPx : totalIsExactSum statsP) by (split; [exact countsNonneg_P | reflexivity]).
  assert (HQx : totalIsExactSum statsQ) by (split; [exact countsNonneg_Q | reflexivity]).
  repeat (split; [assumption|]).
  destruct (@total_is_sum_preserved site) as (Hupd & _ & Hmerge).
  split.
  - destruct (Hupd (siteGet false imageC) statsP 0 _ eq_refl)
      as (stats' & sum' & Hu & _ & _ & Hs & Hx).
    destruct (Hx HPx) as (Hx1 & Hx2 & Hx3); [vm_compute; reflexivity|].
    exists stats', sum'. split; [exact Hu|]. split; [exact (Hs HP)|].
    split; [exact Hx1|]. split; [exact Hx2 | exact Hx3].
  - destruct (Hmerge statsP statsQ) as [Hex Hok].
    destruct Hex as [merged Hm]; [right; vm_compute; discriminate|].
    destruct (Hok merged Hm) as [Hs Hx].
    destruct (Hx HPx HQx) as [Hx1 Hx2]; [vm_compute; discriminate|].
    exists merged. split; [exact Hm|]. split; [exact (Hs HP HQ)|].
    split; [exact Hx1 | exact Hx2].
Defined.

(** C5 on three status-200 outcomes of 10ns, 20ns and 30ns: the average is
    20ns and the maximum 30ns. *)
Lemma fold_200s_average_and_max_witness :
  pass200 [10; 20; 30] <> [] /\
  Forall (fun result => StatusCode result = 200 /\ 0 <= serverTimeOf result)
         (pass200 [10; 20; 30]) /\
  Z.of_nat (length (pass200 [10; 20; 30])) <= max_int64 /\
  exists stats sum,
    receiveAll (pass200 [10; 20; 30]) [] freshCrawlStats 0 =
      Ok (pass200 [10; 20; 30], stats, sum) /\
    Average200Time (finalizeAverage stats sum) = 20 /\
    Max200Time (finalizeAverage stats sum) = 30.
Proof.
  assert (H1 : pass200 [10; 20; 30] <> []) by discriminate.
  assert (H2 : Forall (fun result => StatusCode result = 200 /\
                                     0 <= serverTimeOf result)
                      (pass200 [10; 20; 30])).
  { repeat constructor; vm_compute; discriminate. }
  assert (H3 : Z.of_nat (length (pass200 [10; 20; 30])) <= max_int64)
    by (vm_compute; discriminate).
  repeat (split; [assumption|]).
  destruct (fold_200s_average_and_max _ H1 H2 H3)
    as (stats & sum & Hr & _ & Havg & Hin & Hall).
  exists stats, sum. split; [exact Hr|]. split.
  - rewrite Havg; [reflexivity | vm_compute; discriminate].
  - change (map serverTimeOf (pass200 [10; 20; 30]))
      with [10; 20; 30] in Hin, Hall.
    apply Forall_cons in Hall as [_ Hall]. apply Forall_cons in Hall as [_ Hall].
    apply Forall_cons in Hall as [Hge _]. cbv beta in Hge.
    destruct Hin as [Hin|[Hin|[Hin|[]]]]; lia.
Defined.

(** C10 on a running pass that holds one outcome of 50ms: an untimed 200
    halves the finalized average and leaves the maximum, an untimed 404 is
    recorded with a time of zero. *)
Lemma nil_timing_counts_as_zero_witness :
  Result untimed200 = None /\
  Result (siteGet false imageC) = None /\
  (exists stats' sum',
     updateCrawlStats untimed200 statsRunning (50 * Millisecond) =
       Ok (stats', sum') /\
     sum' = 50 * Millisecond /\
     Max200Time stats' = 50 * Millisecond /\
     Average200Time (finalizeAverage statsRunning (50 * Millisecond)) = 50 * Millisecond /\
     Average200Time (finalizeAverage stats' sum') = 25 * Millisecond) /\
  (exists stats' sum',
     updateCrawlStats (siteGet false imageC) statsRunning (50 * Millisecond) =
       Ok (stats', sum') /\
     Non200Urls stats' =
       [ {| CrawlResult.URL := imageC; CrawlResult.StatusCode := 404;
            CrawlResult.Time := 0; CrawlResult.LinkingURLs := [] |} ]).
Proof.
  split; [reflexivity|]. split; [reflexivity|]. split.
  - destruct (nil_timing_counts_as_zero untimed200 statsRunning
                (50 * Millisecond) _ eq_refl eq_refl)
      as (stats' & sum' & Hu & _ & H200 & _).
    destruct (H200 eq_refl) as (_ & Hs & _ & Hmx & _ & Havg).
    destruct Havg as (Ha' & Ha & _);
      [split; vm_compute; discriminate | split; vm_compute; reflexivity|].
    exists stats', sum'. split; [exact Hu|].
    split; [apply Hs; split; vm_compute; discriminate|].
    split; [apply Hmx; vm_compute; discriminate|].
    split; [rewrite Ha; reflexivity | rewrite Ha'; reflexivity].
  - destruct (nil_timing_counts_as_zero (siteGet false imageC) statsRunning
                (50 * Millisecond) _ eq_refl eq_refl)
      as (stats' & sum' & Hu & _ & _ & Hn200).
    destruct Hn200 as (_ & _ & Hurls); [discriminate|].
    exists stats', sum'. split; [exact Hu | exact Hurls].
Defined.

(** ** The link expansion on the concrete site *)

(** C6 on the concrete site: with external links followed the second pass
    crawls the image /c, whose linking URL is /a; /b is linked too but was
    crawled already. *)
Lemma crawlLinks_candidates_witness :
  imageC ∈ linkedUrlsOf (linkedUrlsSetOf allLinks siteResults [pageA; pageB]) /\
  linkedUrlsSetOf allLinks siteResults [pageA; pageB] !! imageC =
    Some [pageA] /\
  pageB ∉ linkedUrlsOf (linkedUrlsSetOf allLinks siteResults [pageA; pageB]).
Proof.
  destruct (crawlLinks_candidates siteResults [pageA; pageB]
              (siteConfig allLinks) false) as (_ & Hiff & _ & Hrefs).
  cbv zeta in Hiff, Hrefs.
  change (Links_ (siteConfig allLinks)) with allLinks in Hiff, Hrefs.
  assert (Hin : imageC ∈ linkedUrlsOf
            (linkedUrlsSetOf allLinks siteResults [pageA; pageB])).
  { apply Hiff. split.
    - intros H. apply list_elem_of_In in H. destruct H as [H|[H|[]]]; discriminate H.
    - exists (siteGet true pageA), (@mkLink site Image imageC true).
      split; [apply list_elem_of_here|].
      split; [apply list_elem_of_further, list_elem_of_here|].
      split; reflexivity. }
  split; [exact Hin|]. split.
  - rewrite (Hrefs imageC Hin). reflexivity.
  - intros H. apply Hiff in H as [Hnot _]. apply Hnot.
    apply list_elem_of_further, list_elem_of_here.
Defined.

(** The two link-expansion scenarios of the specification. *)
Example expansion_external_off :
  linkedUrlsOf (linkedUrlsSetOf internalLinks siteResults [pageA; pageB]) = [].
Proof. vm_compute. reflexivity. Qed.

Example expansion_external_on :
  linkedUrlsOf (linkedUrlsSetOf allLinks siteResults [pageA; pageB]) = [imageC].
Proof. vm_compute. reflexivity. Qed.

(** ** The two averages on concrete passes *)

(** C9 on passes of {10ns, 20ns} and {60ns}, whose sums are multiples of
    their counts: both averages are 30ns. *)
Lemma direct_and_weighted_average_witness :
  Forall (fun t => 0 <= t) (times200 (pass200 [10; 20])) /\
  Forall (fun t => 0 <= t) (times200 (pass200 [60])) /\
  (Z.of_nat (length (times200 (pass200 [10; 20])))
     | sumList (times200 (pass200 [10; 20]))) /\
  (Z.of_nat (length (times200 (pass200 [60])))
     | sumList (times200 (pass200 [60]))) /\
  directAverage (pass200 [10; 20]) (pass200 [60]) = Ok 30 /\
  weightedAverage (pass200 [10; 20]) (pass200 [60]) = Ok 30.
Proof.
  assert (H1 : Forall (fun t => 0 <= t) (times200 (pass200 [10; 20])))
    by (repeat constructor; discriminate).
  assert (H2 : Forall (fun t => 0 <= t) (times200 (pass200 [60])))
    by (repeat constructor; discriminate).
  assert (H3 : (Z.of_nat (length (times200 (pass200 [10; 20])))
                  | sumList (times200 (pass200 [10; 20]))))
    by (exists 15; reflexivity).
  assert (H4 : (Z.of_nat (length (times200 (pass200 [60])))
                  | sumList (times200 (pass200 [60]))))
    by (exists 60; reflexivity).
  repeat (split; [assumption|]).
  destruct (direct_and_weighted_average (pass200 [10; 20]) (pass200 [60]) H1 H2)
    as (direct & weighted & Hd & Hw & Hdv & _ & _ & Heq);
    [vm_compute; discriminate | vm_compute; discriminate |].
  rewrite Hd, Hw, (Heq H3 H4), Hdv. split; reflexivity.
Defined.

(** C9, the claim as stated fails: passes with success times 1ns, 2ns and
    3ns.  The finalized averages are 1 and 3; weighted by the counts 2 and 1
    they give 5/3 = 1, while the combined sum gives 6/3 = 2. *)
Lemma direct_differs_from_weighted :
  directAverage (pass200 [1; 2]) (pass200 [3]) = Ok 2 /\
  weightedAverage (pass200 [1; 2]) (pass200 [3]) = Ok 1.
Proof. split; vm_compute; reflexivity. Qed.

(** ** AsyncCrawl on the concrete site *)

(** The end-to-end scenarios of the specification: one 200 of 50ms and one
    404 with links off; and no URL at all. *)
Example crawl_partial_failure :
  exists stats,
    AsyncCrawl [pageA; imageC] (siteConfig noLinks) false false =
      Ok (stats, false, Some "Some URLs had a different status code than 200"%string) /\
    Total stats = 2 /\
    StatusCodes stats = Some {[ 200 := 1; 404 := 1 ]} /\
    Average200Time stats = 50 * Millisecond /\
    Max200Time stats = 50 * Millisecond /\
    Non200Urls stats =
      [ {| CrawlResult.URL := imageC; CrawlResult.StatusCode := 404;
           CrawlResult.Time := 0; CrawlResult.LinkingURLs := [] |} ].
Proof. eexists. split; [vm_compute; reflexivity|]. repeat split. Qed.

Example crawl_nothing :
  exists stats,
    AsyncCrawl [] (siteConfig noLinks) false false =
      Ok (stats, false, Some "No URL crawled"%string) /\
    Total stats = 0.
Proof. eexists. split; [vm_compute; reflexivity|]. reflexivity. Qed.

(** With all links followed, the failing image of the second pass carries
    the page that links to it. *)
Example crawl_with_links :
  exists stats err,
    AsyncCrawl [pageA; pageB] (siteConfig allLinks) false false =
      Ok (stats, false, err) /\
    Total stats = 3 /\
    Average200Time stats = 40 * Millisecond /\
    Non200Urls stats =
      [ {| CrawlResult.URL := imageC; CrawlResult.StatusCode := 404;
           CrawlResult.Time := 0; CrawlResult.LinkingURLs := [pageA] |} ].
Proof. eexists _, _. split; [vm_compute; reflexivity|]. repeat split. Qed.

(** C3 on the crawl of /a and /c with links off: one 200 out of two. *)
Lemma AsyncCrawl_error_from_merged_stats_witness :
  exists stats stopped,
    AsyncCrawl [pageA; imageC] (siteConfig noLinks) false false =
      Ok (stats, stopped, Some "Some URLs had a different status code than 200"%string) /\
    Total stats = 2 /\ code_count (StatusCodes stats) 200 = 1.
Proof.
  destruct (AsyncCrawl_error_from_merged_stats [pageA; imageC]
              (siteConfig noLinks) false false)
    as (merged & sum & stopped & err & Hp & Ha & Ht & Hc & _ & _ & Hpart & _).
  vm_compute in Hp. injection Hp as <- <-.
  exists (finalizeAverage
            {| Total := 2; StatusCodes := Some {[ 200 := 1; 404 := 1 ]};
               Average200Time := 0; Max200Time := 50000000;
               Non200Urls := [ {| CrawlResult.URL := imageC; CrawlResult.StatusCode := 404;
                                  CrawlResult.Time := 0; CrawlResult.LinkingURLs := [] |} ] |}
            50000000), stopped.
  rewrite <- Hpart; [|discriminate|discriminate].
  split; [exact Ha|]. split; reflexivity.
Defined.

(** C8, a run halted by an interrupt: two seed URLs, the stream of the first
    pass closes after one outcome because the quit channel fired, and
    AsyncCrawl still returns [stopped = false]. *)
Lemma AsyncCrawl_interrupted_not_stopped :
  firstPass [pageA; pageB] (siteConfig noLinks) true = [siteGet false pageA] /\
  firstPass [pageA; pageB] (siteConfig noLinks) false =
    [siteGet false pageA; siteGet false pageB] /\
  exists stats,
    AsyncCrawl [pageA; pageB] (siteConfig noLinks) true false =
      Ok (stats, false, None) /\
    Total stats = 1.
Proof.
  split; [reflexivity|]. split; [reflexivity|].
  eexists. split; [vm_compute; reflexivity|]. reflexivity.
Qed.

(** ** More properties on concrete inputs *)

(** X1 on [statsP] and [statsQ]: two status-200 outcomes, one 404, no 500. *)
Lemma merge_codes_keywise_witness :
  mergeDefined statsP statsQ /\
  exists stats,
    MergeCrawlStats statsP statsQ = Ok stats /\
    code_count (StatusCodes stats) 200 = 2 /\
    code_count (StatusCodes stats) 404 = 1 /\
    entry (StatusCodes stats) 500 = None.
Proof.
  assert (Hd : mergeDefined statsP statsQ) by (right; vm_compute; discriminate).
  split; [exact Hd|].
  destruct (merge_codes_keywise statsP statsQ) as [Hex Hok].
  destruct (Hex Hd) as [stats Hs]. exists stats. split; [exact Hs|].
  destruct (Hok stats Hs) as (_ & _ & Hsum & Hnone).
  split; [|split].
  - rewrite Hsum; [reflexivity | split; vm_compute; discriminate].
  - rewrite Hsum; [reflexivity | split; vm_compute; discriminate].
  - apply Hnone. split; reflexivity.
Defined.

(** X3 on [statsQ]. *)
Lemma merge_zero_neutral_witness :
  exists right left,
    MergeCrawlStats statsQ zeroCrawlStats = Ok right /\
    MergeCrawlStats zeroCrawlStats statsQ = Ok left /\
    left = right /\
    Total right = 1 /\ Average200Time right = 30 /\ Max200Time right = 30 /\
    entry (StatusCodes right) 200 = Some 1.
Proof.
  destruct (merge_zero_neutral statsQ)
    as (right & left & Hr & Hl & Heq & Ht & Hc & Ha & Hm & _).
  - split; vm_compute; discriminate.
  - intros k v H. unfold statsQ, entry, StatusCodes in H.
    apply lookup_singleton_Some in H as [_ <-]. split; vm_compute; discriminate.
  - split; vm_compute; discriminate.
  - split; vm_compute; discriminate.
  - intros _. vm_compute. discriminate.
  - vm_compute. discriminate.
  - exists right, left. rewrite Ht, Ha, Hm, Hc. repeat split; assumption.
Defined.

(** X4 on [statsP], [statsQ] and [statsQ] again. *)
Lemma merge_associative_but_average_witness :
  exists ab bc left right,
    MergeCrawlStats statsP statsQ = Ok ab /\
    MergeCrawlStats ab statsQ = Ok left /\
    MergeCrawlStats statsQ statsQ = Ok bc /\
    MergeCrawlStats statsP bc = Ok right /\
    Total left = Total right /\
    StatusCodes left = StatusCodes right /\
    Max200Time left = Max200Time right /\
    Non200Urls left = Non200Urls right.
Proof.
  eassert (H1 : MergeCrawlStats statsP statsQ = Ok _) by (vm_compute; reflexivity).
  eassert (H3 : MergeCrawlStats statsQ statsQ = Ok _) by (vm_compute; reflexivity).
  match type of H1 with _ = Ok ?ab =>
    eassert (H2 : MergeCrawlStats ab statsQ = Ok _) by (vm_compute; reflexivity) end.
  match type of H3 with _ = Ok ?bc =>
    eassert (H4 : MergeCrawlStats statsP bc = Ok _) by (vm_compute; reflexivity) end.
  eexists _, _, _, _.
  split; [exact H1|]. split; [exact H2|]. split; [exact H3|]. split; [exact H4|].
  exact (merge_associative_but_average _ _ _ _ _ _ _ H1 H2 H3 H4).
Defined.

(** X5 on [statsP] and [statsQ]: averages 50 and 30, one status-200 outcome
    each, merged average 40. *)
Lemma merge_weighted_average_bounds_witness :
  exists stats,
    MergeCrawlStats statsP statsQ = Ok stats /\
    Average200Time stats = 40 /\
    30 <= Average200Time stats <= 50.
Proof.
  destruct (merge_weighted_average_bounds statsP statsQ)
    as (stats & Hs & Havg & Hb & _); try (vm_compute; discriminate).
  exists stats. split; [exact Hs|]. split; [rewrite Havg; reflexivity|].
  exact Hb.
Defined.

(** X6 on the crawl of /a and the image /c with links off. *)
Lemma crawlUrls_accounts_witness :
  exists stats sum,
    crawlUrls [pageA; imageC] (siteConfig noLinks) false = Ok (passAC, stats, sum) /\
    Total stats = 2 /\
    code_count (StatusCodes stats) 404 = 1 /\
    entry (StatusCodes stats) 500 = None /\
    length (Non200Urls stats) = 1%nat.
Proof.
  destruct (crawlUrls_accounts [pageA; imageC] (siteConfig noLinks) false)
    as (stats & sum & Hc & Ht & Hk & Hnone & Hu & _); [vm_compute; discriminate|].
  exists stats, sum. split; [exact Hc|]. split; [exact Ht|].
  split; [rewrite Hk; reflexivity|]. split; [apply Hnone; reflexivity|].
  rewrite Hu. reflexivity.
Defined.

(** X7 on a pass of two outcomes and the same outcomes swapped. *)
Lemma pass_order_independent_witness :
  Permutation passAC passCA /\
  exists stats sum stats' sum',
    receiveAll passAC [] freshCrawlStats 0 = Ok (passAC, stats, sum) /\
    receiveAll passCA [] freshCrawlStats 0 = Ok (passCA, stats', sum') /\
    Total stats = Total stats' /\
    StatusCodes stats = StatusCodes stats' /\
    sum = sum' /\
    Max200Time stats = Max200Time stats'.
Proof.
  assert (Hp : Permutation passAC passCA) by apply perm_swap.
  split; [exact Hp|].
  destruct (pass_order_independent passAC passCA Hp)
    as (stats & sum & stats' & sum' & H1 & H2 & H3 & H4 & H5 & H6 & _).
  exists stats, sum, stats', sum'. repeat split; assumption.
Defined.

(** X9 on the crawl of /a and /b with links off: two outcomes, both 200, no
    error. *)
Lemma AsyncCrawl_succeeds_iff_all_200_witness :
  exists stats stopped,
    AsyncCrawl [pageA; pageB] (siteConfig noLinks) false false = Ok (stats, stopped, None) /\
    Total stats = 2.
Proof.
  destruct (AsyncCrawl_succeeds_iff_all_200 [pageA; pageB] (siteConfig noLinks) false false)
    as (stats & stopped & err & Ha & Ht & Hnone & _); [vm_compute; discriminate|].
  assert (He : err = None).
  { apply Hnone. split; [vm_compute; discriminate | vm_compute; repeat constructor]. }
  rewrite He in Ha. exists stats, stopped. split; [exact Ha | rewrite Ht; reflexivity].
Defined.

(** X10 on the crawl of /a and /b with all links followed: the failing image
    of the second pass is the one record, with /a as its linking URL. *)
Lemma AsyncCrawl_reports_non200_witness :
  exists stats stopped err,
    AsyncCrawl [pageA; pageB] (siteConfig allLinks) false false = Ok (stats, stopped, err) /\
    Non200Urls stats =
      [ {| CrawlResult.URL := imageC; CrawlResult.StatusCode := 404;
           CrawlResult.Time := 0; CrawlResult.LinkingURLs := [pageA] |} ] /\
    Z.of_nat (length (Non200Urls stats)) = Total stats - code_count (StatusCodes stats) 200.
Proof.
  destruct (AsyncCrawl_reports_non200 [pageA; pageB] (siteConfig allLinks) false false)
    as (stats & stopped & err & Ha & Hu & _ & _ & Hlen).
  exists stats, stopped, err. split; [exact Ha|]. split.
  - rewrite Hu. vm_compute. reflexivity.
  - apply Hlen. vm_compute. discriminate.
Defined.

(** X11 on the same crawl: the success times are 50ms and 30ms. *)
Lemma AsyncCrawl_average_and_max_witness :
  exists stats stopped err,
    AsyncCrawl [pageA; pageB] (siteConfig allLinks) false false = Ok (stats, stopped, err) /\
    Average200Time stats = 40 * Millisecond /\
    50 * Millisecond <= Max200Time stats.
Proof.
  destruct (AsyncCrawl_average_and_max [pageA; pageB] (siteConfig allLinks) false false)
    as (stats & stopped & err & Ha & Havg & Hall & _).
  - vm_compute. repeat constructor; discriminate.
  - vm_compute. discriminate.
  - vm_compute. discriminate.
  - exists stats, stopped, err. split; [exact Ha|]. split; [rewrite Havg; reflexivity|].
    change (times200 (firstPass [pageA; pageB] (siteConfig allLinks) false ++
                      secondPass [pageA; pageB] (siteConfig allLinks) false false))
      with [50 * Millisecond; 30 * Millisecond] in Hall.
    apply Forall_cons in Hall as [H _]. exact H.
Defined.

(** X12 on the site: the strict fetcher, which streams nothing for a
    throttle below 1, gives the crawl the fetcher of the site gives, although
    the configured throttle is 0. *)
Lemma AsyncCrawl_throttle_at_least_one_witness :
  Throttle (siteConfig noLinks) <= 0 /\
  strictGetter [pageA] (HTTP (siteConfig noLinks)) 0 false = [] /\
  AsyncCrawl [pageA] (siteConfig noLinks) false false =
    AsyncCrawl [pageA] (strictConfig noLinks) false false /\
  exists stats, AsyncCrawl [pageA] (strictConfig noLinks) false false = Ok (stats, false, None).
Proof.
  split; [vm_compute; discriminate|]. split; [reflexivity|].
  destruct (AsyncCrawl_throttle_at_least_one [pageA] (siteConfig noLinks)
              (strictConfig noLinks) false false) as [Hagree _].
  assert (Heq : AsyncCrawl [pageA] (siteConfig noLinks) false false =
                AsyncCrawl [pageA] (strictConfig noLinks) false false).
  { apply Hagree; try reflexivity.
    intros us http throttle quit Hge. simpl. unfold strictGetter.
    destruct (Z.ltb_spec throttle 1); [lia | reflexivity]. }
  split; [exact Heq|]. rewrite <- Heq. eexists. vm_compute. reflexivity.
Defined.

(** X13 on the site: a sitemap that cannot be retrieved gives its error and
    no URL. *)
Lemma sitemap_error_is_retrieval_error_witness :
  @GetSitemapUrlsAsStrings site siteSource "http://site/none.xml" =
    ([], Some "sitemap not found"%string) /\
  snd (@GetSitemapUrlsAsStrings site siteSource siteSitemap) = None.
Proof.
  split.
  - destruct (@sitemap_error_is_retrieval_error site siteSource "http://site/none.xml")
      as (_ & _ & _ & Herr).
    apply (Herr "sitemap not found"%string). reflexivity.
  - destruct (@sitemap_error_is_retrieval_error site siteSource siteSitemap)
      as (_ & He & _). rewrite He. reflexivity.
Defined.

(** X14 on the sitemap of the site: three entries, the second does not
    parse, /a and /b are returned in this order. *)
Lemma sitemap_urls_in_order_witness :
  @sitemap_Get site siteSource siteSitemap = ([pageA; ":bad"%string; pageB], None) /\
  @GetSitemapUrlsAsStrings site siteSource siteSitemap = ([pageA; pageB], None) /\
  (length (fst (@GetSitemapUrlsAsStrings site siteSource siteSitemap)) <= 3)%nat.
Proof.
  assert (Hget : @sitemap_Get site siteSource siteSitemap =
                 ([pageA; ":bad"%string; pageB], None)) by reflexivity.
  split; [exact Hget|].
  destruct (@sitemap_urls_in_order site siteSource siteSitemap _ Hget) as (Heq & Hle & _).
  split; [rewrite Heq; reflexivity | exact Hle].
Defined.

(** X15 on the site: a fetcher that attaches a link to /b to every outcome
    of a pass without link parsing changes nothing; /b is not crawled through
    the image /c. *)
Lemma AsyncCrawl_no_third_hop_witness :
  AsyncCrawl [pageA] (siteConfig allLinks) false false =
    AsyncCrawl [pageA] (eagerConfig allLinks) false false /\
  exists stats err,
    AsyncCrawl [pageA] (eagerConfig allLinks) false false = Ok (stats, false, err) /\
    Total stats = 3.
Proof.
  assert (Heq : AsyncCrawl [pageA] (siteConfig allLinks) false false =
                AsyncCrawl [pageA] (eagerConfig allLinks) false false).
  { apply (AsyncCrawl_no_third_hop [pageA] (siteConfig allLinks) (eagerConfig allLinks)
             false false eq_refl eq_refl eq_refl eq_refl).
    - intros us http throttle quit Hp.
      change (siteGetter us http throttle quit = eagerGetter us http throttle quit).
      unfold eagerGetter. rewrite Hp. reflexivity.
    - intros us http throttle quit Hp.
      change (map dropLinks (siteGetter us http throttle quit) =
              map dropLinks (eagerGetter us http throttle quit)).
      unfold eagerGetter. rewrite Hp, map_map. reflexivity. }
  split; [exact Heq|]. rewrite <- Heq. eexists _, _. split; [vm_compute; reflexivity|].
  reflexivity.
Defined.
